(** * The ballot-encryption pipeline of electionguard

    A shallow embedding of [src/electionguard/encryption_compositor.py]:
    [selection_from], [placeholder_selection_description_from],
    [contest_from], [encrypt_selection], [encrypt_contest] and
    [encrypt_ballot], followed by the properties of the pipeline.

    The modules the compositor imports ([ballot], [election], [group],
    [hash], [nonces], [elgamal], [chaum_pedersen]) are not part of the
    sources at hand.  Their functions and methods are gathered in the record
    [Collaborators]; every definition of the pipeline takes such a record,
    and every general theorem holds for all of them.  Module [Reference]
    gives one instance, written after the specification, on which the
    pipeline is run on concrete ballots. *)

From Stdlib Require Import ZArith List String Ascii Bool Lia.
From Stdlib Require Import DecimalString DecimalZ DecimalPos.
From Stdlib Require Import Permutation.
Import ListNotations.
Open Scope Z_scope.

(** ** Python values *)

(** A [str] object: the address of the object ([id(s)]) and its characters.
    The operator [is] compares addresses, [==] compares characters. *)
Record PyStr : Type := mkPyStr { py_addr : N; py_chars : string }.

Definition py_is (a b : PyStr) : bool := N.eqb (py_addr a) (py_addr b).
Definition py_eq (a b : PyStr) : bool := String.eqb (py_chars a) (py_chars b).

(** [str(b)] for a [bool] and [str(n)] for an [int]. *)
Definition str_of_bool (b : bool) : string :=
  if b then "True"%string else "False"%string.
Definition str_of_int (n : Z) : string := NilZero.string_of_int (Z.to_int n).

(** [range(n)]: empty when [n <= 0]. *)
Definition range (n : Z) : list Z := map Z.of_nat (seq 0 (Z.to_nat n)).

(** What the second field of a [PlaintextBallotSelection] may hold: Python
    does not constrain it, the data model speaks of the integers 0 and 1,
    [selection_from] stores a [str]. *)
Inductive PyValue : Type :=
| PyInt (n : Z)
| PyText (s : string).

(** The result of a call that may raise. *)
Inductive outcome (A : Type) : Type :=
| Returns (a : A)
| Raises (exn : string).
Arguments Returns {A} a.
Arguments Raises {A} exn.

Definition obind {A B : Type} (m : outcome A) (k : A -> outcome B) : outcome B :=
  match m with
  | Returns a => k a
  | Raises e => Raises e
  end.

Notation "x <- m ;; k" := (obind m (fun x => k))
  (at level 61, m at next level, right associativity).

(** Modelled from the spec: the module [group] is missing;
    [flatmap_optional(optional, mapper)] follows the absence-as-error-signal
    pattern: an absent value stays absent, a present one is given to
    [mapper]. *)
Definition flatmap_optional {A B : Type} (optional : option A)
  (mapper : A -> option B) : option B :=
  match optional with
  | None => None
  | Some a => mapper a
  end.

(** ** Data model *)

Definition ElementModP : Type := Z.
Definition ElementModQ : Type := Z.

Record ElGamalCiphertext : Type := mkElGamalCiphertext {
  pad : ElementModP;
  data : ElementModP
}.

(** [SelectionDescription(object_id, <second argument>, sequence_order)]. *)
Record SelectionDescription : Type := mkSelectionDescription {
  sd_object_id : PyStr;
  sd_second : PyStr;
  sd_sequence_order : Z
}.

Record ContestDescription : Type := mkContestDescription {
  cd_object_id : PyStr;
  cd_sequence_order : Z;
  cd_ballot_selections : list SelectionDescription;
  cd_number_elected : Z;
  cd_votes_allowed : Z
}.

(** [PlaintextBallotSelection(object_id, <vote>, is_placeholder)]. *)
Record PlaintextBallotSelection : Type := mkPlaintextBallotSelection {
  ps_object_id : PyStr;
  ps_vote : PyValue;
  ps_is_placeholder : bool
}.

Record PlaintextBallotContest : Type := mkPlaintextBallotContest {
  pc_object_id : PyStr;
  pc_ballot_selections : list PlaintextBallotSelection
}.

Record PlaintextBallot : Type := mkPlaintextBallot {
  pb_object_id : PyStr;
  pb_ballot_style : PyStr;
  pb_contests : list PlaintextBallotContest
}.

(** Modelled from the spec: the module [chaum_pedersen] is missing; a
    disjunctive proof carries two commitment pairs (one per branch), two
    branch challenges, the combined challenge and two responses. *)
Record DisjunctiveChaumPedersenProof : Type := mkDisjunctiveProof {
  dp_a0 : ElementModP; dp_b0 : ElementModP;
  dp_a1 : ElementModP; dp_b1 : ElementModP;
  dp_c0 : ElementModQ; dp_c1 : ElementModQ;
  dp_c : ElementModQ;
  dp_v0 : ElementModQ; dp_v1 : ElementModQ
}.

(** Modelled from the spec: the module [chaum_pedersen] is missing; a
    constant proof is a single Sigma protocol: a commitment pair, the
    challenge and the response, with the constant it is bound to. *)
Record ConstantChaumPedersenProof : Type := mkConstantProof {
  kp_a : ElementModP; kp_b : ElementModP;
  kp_c : ElementModQ;
  kp_v : ElementModQ;
  kp_constant : Z
}.

Record CyphertextBallotSelection : Type := mkCyphertextBallotSelection {
  cs_object_id : PyStr;
  cs_description_hash : ElementModQ;
  cs_message : option ElGamalCiphertext;
  cs_is_placeholder : bool;
  cs_nonce : option ElementModQ;
  cs_proof : option DisjunctiveChaumPedersenProof
}.

(** The list of selections is the Python list the compositor builds: its
    entries are whatever [encrypt_selection] returned, [None] included. *)
Record CyphertextBallotContest : Type := mkCyphertextBallotContest {
  cc_object_id : PyStr;
  cc_description_hash : ElementModQ;
  cc_ballot_selections : list (option CyphertextBallotSelection);
  cc_nonce : option ElementModQ;
  cc_proof : option ConstantChaumPedersenProof
}.

Record CyphertextBallot : Type := mkCyphertextBallot {
  cb_object_id : PyStr;
  cb_ballot_style : PyStr;
  cb_description_hash : ElementModQ;
  cb_contests : list (option CyphertextBallotContest);
  cb_nonce : option Z;
  cb_tracking_id : option string
}.

(** The constructors as the compositor calls them, and the attribute
    assignments that follow the construction. *)
Definition CyphertextBallotSelection_init (object_id : PyStr)
  (description_hash : ElementModQ) (message : option ElGamalCiphertext)
  (is_placeholder : bool) (nonce : ElementModQ) : CyphertextBallotSelection :=
  mkCyphertextBallotSelection object_id description_hash message
    is_placeholder (Some nonce) None.

Definition cs_set_nonce (s : CyphertextBallotSelection) (nonce : ElementModQ) :=
  mkCyphertextBallotSelection (cs_object_id s) (cs_description_hash s)
    (cs_message s) (cs_is_placeholder s) (Some nonce) (cs_proof s).

Definition cs_set_proof (s : CyphertextBallotSelection)
  (proof : option DisjunctiveChaumPedersenProof) :=
  mkCyphertextBallotSelection (cs_object_id s) (cs_description_hash s)
    (cs_message s) (cs_is_placeholder s) (cs_nonce s) proof.

Definition CyphertextBallotContest_init (object_id : PyStr)
  (description_hash : ElementModQ)
  (ballot_selections : list (option CyphertextBallotSelection)) :=
  mkCyphertextBallotContest object_id description_hash ballot_selections
    None None.

Definition cc_set_nonce (c : CyphertextBallotContest) (nonce : ElementModQ) :=
  mkCyphertextBallotContest (cc_object_id c) (cc_description_hash c)
    (cc_ballot_selections c) (Some nonce) (cc_proof c).

Definition cc_set_proof (c : CyphertextBallotContest)
  (proof : option ConstantChaumPedersenProof) :=
  mkCyphertextBallotContest (cc_object_id c) (cc_description_hash c)
    (cc_ballot_selections c) (cc_nonce c) proof.

Definition CyphertextBallot_init (object_id ballot_style : PyStr)
  (description_hash : ElementModQ)
  (contests : list (option CyphertextBallotContest)) :=
  mkCyphertextBallot object_id ballot_style description_hash contests
    None None.

Definition cb_set_nonce (b : CyphertextBallot) (nonce : Z) :=
  mkCyphertextBallot (cb_object_id b) (cb_ballot_style b)
    (cb_description_hash b) (cb_contests b) (Some nonce) (cb_tracking_id b).

Definition cb_set_tracking_id (b : CyphertextBallot) (tracking_id : string) :=
  mkCyphertextBallot (cb_object_id b) (cb_ballot_style b)
    (cb_description_hash b) (cb_contests b) (cb_nonce b) (Some tracking_id).

(** ** External collaborators *)

(** [Nonces(head, seed)]: the sequence is determined by this pair. *)
Record Nonces : Type := mkNonces { nonces_head : ElementModQ; nonces_seed : ElementModQ }.

Record BallotStyle : Type := mkBallotStyle { bs_object_id : PyStr }.

(** The election metadata, by the two methods the compositor calls. *)
Record Election : Type := mkElection {
  get_ballot_style : PyStr -> BallotStyle;
  get_contests_for : PyStr -> list ContestDescription
}.

Record CyphertextElection : Type := mkCyphertextElection {
  elgamal_public_key : ElementModP;
  crypto_extended_base_hash : ElementModQ
}.

(** The functions and methods of the missing modules.  The methods of a
    contest or a ballot under construction receive a list that may hold
    [None]; they are the ones given the possibility to raise.
    [fstring_addr] is the address at which the runtime places the result of
    an f-string; the compositor never inspects it. *)
Record Collaborators : Type := mkCollaborators {
  selection_crypto_hash : SelectionDescription -> ElementModQ;
  contest_crypto_hash : ContestDescription -> ElementModQ;
  selection_is_valid : PlaintextBallotSelection -> PyStr -> bool;
  to_int : PlaintextBallotSelection -> Z;
  contest_is_valid : PlaintextBallotContest -> PyStr -> Z -> Z -> Z -> bool;
  ballot_is_valid : PlaintextBallot -> PyStr -> bool;
  Nonces_getitem : Nonces -> Z -> ElementModQ;
  elgamal_encrypt : Z -> ElementModQ -> ElementModP -> option ElGamalCiphertext;
  make_disjunctive_chaum_pedersen :
    ElGamalCiphertext -> ElementModQ -> ElementModP -> ElementModQ -> Z ->
    option DisjunctiveChaumPedersenProof;
  selection_is_valid_encryption :
    CyphertextBallotSelection -> ElementModQ -> ElementModP -> bool;
  elgamal_accumulate : CyphertextBallotContest -> outcome ElGamalCiphertext;
  aggregate_nonce : CyphertextBallotContest -> outcome ElementModQ;
  make_constant_chaum_pedersen :
    ElGamalCiphertext -> Z -> ElementModQ -> ElementModP -> ElementModQ ->
    outcome (option ConstantChaumPedersenProof);
  contest_is_valid_encryption :
    CyphertextBallotContest -> ElementModQ -> ElementModP -> outcome bool;
  ballot_is_valid_encryption :
    CyphertextBallot -> ElementModQ -> ElementModP -> outcome bool;
  hash_elems : ElementModQ -> PyStr -> Z -> ElementModQ;
  fstring_addr : string -> N
}.

(** Modelled from the spec: the class [Nonces] is missing; the sequence is
    iterable from index 0, so [next(iter(nonce_sequence))] is its element of
    index 0. *)
Definition Nonces_first (X : Collaborators) (nonce_sequence : Nonces) : ElementModQ :=
  Nonces_getitem X nonce_sequence 0.

(** ** The compositor *)

(** [selection_from(description, is_placeholder=False, is_affirmative=False)] *)
Definition selection_from (description : SelectionDescription)
  (is_placeholder is_affirmative : bool) : PlaintextBallotSelection :=
  mkPlaintextBallotSelection (sd_object_id description)
    (PyText (str_of_bool is_affirmative)) is_placeholder.

(** [placeholder_selection_description_from(description, sequence_order)];
    the f-string is [f"{description.object_id}-{sequence_order}"]. *)
Definition placeholder_selection_description_from (X : Collaborators)
  (description : ContestDescription) (sequence_order : Z) : SelectionDescription :=
  let chars :=
    (py_chars (cd_object_id description) ++ "-" ++ str_of_int sequence_order)%string in
  let placeholder := mkPyStr (fstring_addr X chars) chars in
  mkSelectionDescription placeholder placeholder sequence_order.

(** [contest_from(description)] *)
Definition contest_from (description : ContestDescription) : PlaintextBallotContest :=
  let selections :=
    fold_left
      (fun selections selection_description =>
         selections ++ [selection_from selection_description false false])
      (cd_ballot_selections description) [] in
  mkPlaintextBallotContest (cd_object_id description) selections.

(** [encrypt_selection(selection, selection_description, elgamal_public_key,
    seed, is_placeholder=False, should_verify_proofs=True)] *)
Definition encrypt_selection (X : Collaborators)
  (selection : PlaintextBallotSelection)
  (selection_description : SelectionDescription)
  (elgamal_public_key : ElementModP) (seed : ElementModQ)
  (is_placeholder should_verify_proofs : bool)
  : option CyphertextBallotSelection :=
  if negb (selection_is_valid X selection (sd_object_id selection_description))
  then None
  else
    let nonce_sequence :=
      mkNonces (selection_crypto_hash X selection_description) seed in
    let selection_nonce :=
      Nonces_getitem X nonce_sequence (sd_sequence_order selection_description) in
    let selection_representation := to_int X selection in
    let elgamal_encryption :=
      elgamal_encrypt X selection_representation selection_nonce
        elgamal_public_key in
    let encrypted_selection :=
      CyphertextBallotSelection_init (ps_object_id selection)
        (selection_crypto_hash X selection_description)
        elgamal_encryption is_placeholder selection_nonce in
    let encrypted_selection := cs_set_nonce encrypted_selection selection_nonce in
    let encrypted_selection :=
      cs_set_proof encrypted_selection
        (flatmap_optional (cs_message encrypted_selection)
           (fun elgamal_cyphertext =>
              make_disjunctive_chaum_pedersen X elgamal_cyphertext
                selection_nonce elgamal_public_key
                (Nonces_first X nonce_sequence) selection_representation)) in
    if negb should_verify_proofs then Some encrypted_selection
    else if selection_is_valid_encryption X encrypted_selection
              (selection_crypto_hash X selection_description) elgamal_public_key
    then Some encrypted_selection
    else None.

(** *** The two loops of [encrypt_contest]

    The loops are written once, over the function [enc] applied to each
    pair of a plaintext selection and its description: [encrypt_contest]
    runs them with [encrypt_selection], the properties below also with the
    function that records the pair.  The local variable
    [encrypted_selection] is unbound when the first loop starts; [unbound]
    stands for it. *)
Section ContestLoops.
Variable X : Collaborators.
Context {R : Type}.
Variable enc : PlaintextBallotSelection -> SelectionDescription -> R.

(** [for selection in contest.ballot_selections: ...] *)
Definition selection_loop (description : SelectionDescription)
  (selections : list PlaintextBallotSelection) (st : bool * Z * R)
  : bool * Z * R :=
  fold_left
    (fun '(has_selection, selection_count, encrypted_selection) selection =>
       if py_is (ps_object_id selection) (sd_object_id description)
       then (true, selection_count + to_int X selection, enc selection description)
       else (has_selection, selection_count, encrypted_selection))
    selections st.

(** The body of [for description in contest_description.ballot_selections]. *)
Definition description_step (contest : PlaintextBallotContest)
  (st : list R * Z * Z * R) (description : SelectionDescription)
  : list R * Z * Z * R :=
  let '(encrypted_selections, selection_count, highest_sequence_order,
        encrypted_selection) := st in
  let has_selection := false in
  let highest_sequence_order :=
    if sd_sequence_order description >? highest_sequence_order
    then sd_sequence_order description
    else highest_sequence_order in
  let '(has_selection, selection_count, encrypted_selection) :=
    selection_loop description (pc_ballot_selections contest)
      (has_selection, selection_count, encrypted_selection) in
  let encrypted_selection :=
    if negb has_selection
    then enc (selection_from description false false) description
    else encrypted_selection in
  (encrypted_selections ++ [encrypted_selection], selection_count,
   highest_sequence_order, encrypted_selection).

(** The body of [for i in range(contest_description.number_elected)]. *)
Definition placeholder_step (contest_description : ContestDescription)
  (highest_sequence_order : Z) (st : list R * Z * R) (i : Z)
  : list R * Z * R :=
  let '(encrypted_selections, selection_count, _) := st in
  let select_placeholder := false in
  let '(select_placeholder, selection_count) :=
    if selection_count <? cd_number_elected contest_description
    then (true, selection_count + 1)
    else (select_placeholder, selection_count) in
  let placeholder_description :=
    placeholder_selection_description_from X contest_description
      (highest_sequence_order + i) in
  let encrypted_selection :=
    enc (selection_from placeholder_description true select_placeholder)
      placeholder_description in
  (encrypted_selections ++ [encrypted_selection], selection_count,
   encrypted_selection).

(** Both loops: the list [encrypted_selections] and the final
    [selection_count]. *)
Definition contest_loops (unbound : R) (contest : PlaintextBallotContest)
  (contest_description : ContestDescription) : list R * Z :=
  let encrypted_selections := [] in
  let selection_count := 0 in
  let highest_sequence_order := 0 in
  let '(encrypted_selections, selection_count, highest_sequence_order,
        encrypted_selection) :=
    fold_left (description_step contest)
      (cd_ballot_selections contest_description)
      (encrypted_selections, selection_count, highest_sequence_order, unbound) in
  let '(encrypted_selections, selection_count, _) :=
    fold_left (placeholder_step contest_description highest_sequence_order)
      (range (cd_number_elected contest_description))
      (encrypted_selections, selection_count, encrypted_selection) in
  (encrypted_selections, selection_count).
End ContestLoops.

(** [encrypt_contest(contest, contest_description, elgamal_public_key, seed,
    should_verify_proofs=True)].  The calls of [encrypt_selection] leave
    [is_placeholder] and [should_verify_proofs] to their defaults.  The
    warnings written with [log_warning] change nothing in the result: the
    test on [votes_allowed] after the loops only logs. *)
Definition encrypt_contest (X : Collaborators)
  (contest : PlaintextBallotContest) (contest_description : ContestDescription)
  (elgamal_public_key : ElementModP) (seed : ElementModQ)
  (should_verify_proofs : bool) : outcome (option CyphertextBallotContest) :=
  if negb (contest_is_valid X contest
             (cd_object_id contest_description)
             (Z.of_nat (List.length (cd_ballot_selections contest_description)))
             (cd_number_elected contest_description)
             (cd_votes_allowed contest_description))
  then Returns None
  else
    let nonce_sequence :=
      mkNonces (contest_crypto_hash X contest_description) seed in
    let contest_nonce :=
      Nonces_getitem X nonce_sequence (cd_sequence_order contest_description) in
    let '(encrypted_selections, selection_count) :=
      contest_loops X
        (fun selection description =>
           encrypt_selection X selection description elgamal_public_key
             contest_nonce false true)
        None contest contest_description in
    let encrypted_contest :=
      CyphertextBallotContest_init (pc_object_id contest)
        (contest_crypto_hash X contest_description) encrypted_selections in
    let encrypted_contest := cc_set_nonce encrypted_contest contest_nonce in
    accumulated <- elgamal_accumulate X encrypted_contest ;;
    aggregate <- aggregate_nonce X encrypted_contest ;;
    proof <- make_constant_chaum_pedersen X accumulated
               (cd_number_elected contest_description) aggregate
               elgamal_public_key (Nonces_first X nonce_sequence) ;;
    let encrypted_contest := cc_set_proof encrypted_contest proof in
    if negb should_verify_proofs then Returns (Some encrypted_contest)
    else
      valid <- contest_is_valid_encryption X encrypted_contest
                 (contest_crypto_hash X contest_description) elgamal_public_key ;;
      if (valid : bool) then Returns (Some encrypted_contest)
      else Returns None.

(** *** The loops of [encrypt_ballot], over the function [enc] applied to
    each pair of a plaintext contest and its description. *)
Section BallotLoops.
Context {R : Type}.
Variable enc : PlaintextBallotContest -> ContestDescription -> outcome R.

(** [for contest in ballot.contests: ...] for one description. *)
Fixpoint contest_loop (description : ContestDescription)
  (contests : list PlaintextBallotContest) (encrypted_contests : list R)
  : outcome (list R) :=
  match contests with
  | [] => Returns encrypted_contests
  | contest :: rest =>
      encrypted_contest <-
        (if py_is (pc_object_id contest) (cd_object_id description)
         then enc contest description
         else enc (contest_from description) description) ;;
      contest_loop description rest (encrypted_contests ++ [encrypted_contest])
  end.

(** [for description in election_metadata.get_contests_for(...): ...] *)
Fixpoint description_loop (descriptions : list ContestDescription)
  (contests : list PlaintextBallotContest) (encrypted_contests : list R)
  : outcome (list R) :=
  match descriptions with
  | [] => Returns encrypted_contests
  | description :: rest =>
      encrypted_contests <-
        contest_loop description contests encrypted_contests ;;
      description_loop rest contests encrypted_contests
  end.
End BallotLoops.

(** [encrypt_ballot(ballot, election_metadata, encryption_context,
    should_verify_proofs=True)].  [random_master_nonce] is the value drawn by
    [randbelow(Q)], the only randomness of the pipeline. *)
Definition encrypt_ballot (X : Collaborators) (ballot : PlaintextBallot)
  (election_metadata : Election) (encryption_context : CyphertextElection)
  (random_master_nonce : Z) (should_verify_proofs : bool)
  : outcome (option CyphertextBallot) :=
  let style := get_ballot_style election_metadata (pb_ballot_style ballot) in
  if negb (ballot_is_valid X ballot (bs_object_id style))
  then Returns None
  else
    let hashed_ballot_nonce :=
      hash_elems X (crypto_extended_base_hash encryption_context)
        (pb_object_id ballot) random_master_nonce in
    encrypted_contests <-
      description_loop
        (fun contest description =>
           encrypt_contest X contest description
             (elgamal_public_key encryption_context) hashed_ballot_nonce true)
        (get_contests_for election_metadata (pb_ballot_style ballot))
        (pb_contests ballot) [] ;;
    let encrypted_ballot :=
      CyphertextBallot_init (pb_object_id ballot) (pb_ballot_style ballot)
        (crypto_extended_base_hash encryption_context) encrypted_contests in
    let encrypted_ballot := cb_set_nonce encrypted_ballot random_master_nonce in
    let encrypted_ballot := cb_set_tracking_id encrypted_ballot "abc123" in
    if negb should_verify_proofs then Returns (Some encrypted_ballot)
    else
      valid <- ballot_is_valid_encryption X encrypted_ballot
                 (crypto_extended_base_hash encryption_context)
                 (elgamal_public_key encryption_context) ;;
      if (valid : bool) then Returns (Some encrypted_ballot)
      else Returns None.

(** ** A reference instance of the collaborators

    Written after sections 3 and 4 of the specification, over a small group
    so that the pipeline runs inside Rocq: [P = 2 * Q + 1] with [Q = 1019],
    generator [G = 4] of the subgroup of order [Q]. *)
Module Reference.

Definition P : Z := 2039.
Definition Q : Z := 1019.
Definition G : Z := 4.

(** Modelled from the spec: the module [group] is missing; modular
    arithmetic on canonically reduced values. *)
Definition add_mod_q (a b : Z) : ElementModQ := (a + b) mod Q.
Definition mult_mod_q (a b : Z) : ElementModQ := (a * b) mod Q.
Definition mult_mod_p (a b : Z) : ElementModP := (a * b) mod P.
Fixpoint pow_pos_mod_p (b : Z) (e : positive) : ElementModP :=
  match e with
  | xH => b mod P
  | xO e' => let r := pow_pos_mod_p b e' in (r * r) mod P
  | xI e' => let r := pow_pos_mod_p b e' in (r * r * b) mod P
  end.
Definition pow_mod_p (b e : Z) : ElementModP :=
  match e mod Q with
  | Zpos e' => pow_pos_mod_p b e'
  | _ => 1
  end.
Definition g_pow_p (e : Z) : ElementModP := pow_mod_p G e.

(** Modelled from the spec: the module [hash] is missing; [hash_elems]
    is deterministic and order-sensitive and reduces into [0, Q).  This
    instance folds the inputs with a polynomial in place of the
    cryptographic hash function. *)
Definition hash_ints (inputs : list Z) : ElementModQ :=
  fold_left (fun h x => (h * 31 + x mod Q + 17) mod Q) inputs 7.

Definition int_of_str (s : string) : Z :=
  fold_left (fun h c => (h * 256 + Z.of_nat (nat_of_ascii c)) mod Q)
    (list_ascii_of_string s) 0.

Definition ref_hash_elems (h : ElementModQ) (s : PyStr) (n : Z) : ElementModQ :=
  hash_ints [h; int_of_str (py_chars s); n].

(** Modelled from the spec: the class [Nonces] is missing;
    [nonce[i] = hash_elems(head, seed, i)]. *)
Definition ref_Nonces_getitem (ns : Nonces) (i : Z) : ElementModQ :=
  hash_ints [nonces_head ns; nonces_seed ns; i].

(** Modelled from the spec: the module [election] is missing;
    [crypto_hash()] is a digest over the identifying fields of the
    description. *)
Definition ref_selection_crypto_hash (d : SelectionDescription) : ElementModQ :=
  hash_ints [int_of_str (py_chars (sd_object_id d)); sd_sequence_order d].

Definition ref_contest_crypto_hash (d : ContestDescription) : ElementModQ :=
  hash_ints (int_of_str (py_chars (cd_object_id d)) :: cd_sequence_order d
             :: cd_number_elected d :: cd_votes_allowed d
             :: map ref_selection_crypto_hash (cd_ballot_selections d)).

(** Modelled from the spec: the module [ballot] is missing; the 0/1
    representation of a selection.  An integer stands for itself, the
    text ["True"] written by [selection_from] for 1, any other text
    for 0. *)
Definition ref_to_int (s : PlaintextBallotSelection) : Z :=
  match ps_vote s with
  | PyInt n => n
  | PyText t => if String.eqb t "True" then 1 else 0
  end.

(** Modelled from the spec: the module [ballot] is missing; a selection
    is valid when its object id matches the description and its plaintext
    value is 0 or 1. *)
Definition ref_selection_is_valid (s : PlaintextBallotSelection)
  (expected_object_id : PyStr) : bool :=
  py_eq (ps_object_id s) expected_object_id
  && (0 <=? ref_to_int s) && (ref_to_int s <=? 1).

(** Modelled from the spec: the module [ballot] is missing; a contest is
    validated against the description's object id, number of selections,
    [number_elected] and [votes_allowed]. *)
Definition ref_contest_is_valid (c : PlaintextBallotContest)
  (expected_object_id : PyStr)
  (expected_number_selections expected_number_elected votes_allowed : Z) : bool :=
  let votes := map ref_to_int (pc_ballot_selections c) in
  py_eq (pc_object_id c) expected_object_id
  && (Z.of_nat (List.length (pc_ballot_selections c)) <=? expected_number_selections)
  && (Z.of_nat (List.length (filter (fun v => 1 <=? v) votes)) <=? expected_number_elected)
  && (fold_left Z.add votes 0 <=? votes_allowed).

(** Modelled from the spec: the module [ballot] is missing; a ballot is
    validated against the object id of its style. *)
Definition ref_ballot_is_valid (b : PlaintextBallot)
  (expected_ballot_style_id : PyStr) : bool :=
  py_eq (pb_ballot_style b) expected_ballot_style_id.

(** Modelled from the spec: the module [elgamal] is missing;
    [pad = g^nonce], [data = g^message * public_key^nonce], and no
    ciphertext for the zero nonce. *)
Definition ref_elgamal_encrypt (message : Z) (nonce : ElementModQ)
  (public_key : ElementModP) : option ElGamalCiphertext :=
  if nonce =? 0 then None
  else Some (mkElGamalCiphertext (g_pow_p nonce)
               (mult_mod_p (g_pow_p message) (pow_mod_p public_key nonce))).

Definition elgamal_add (c1 c2 : ElGamalCiphertext) : ElGamalCiphertext :=
  mkElGamalCiphertext (mult_mod_p (pad c1) (pad c2))
    (mult_mod_p (data c1) (data c2)).

(** Modelled from the spec: the module [chaum_pedersen] is missing; the
    disjunctive proof runs the genuine Sigma protocol on the branch of the
    plaintext, simulates the other branch from a chosen challenge and
    response, and splits the Fiat-Shamir challenge between the two. *)
Definition disjunctive_challenge (message : ElGamalCiphertext)
  (a0 b0 a1 b1 : ElementModP) : ElementModQ :=
  hash_ints [pad message; data message; a0; b0; a1; b1].

Definition ref_make_disjunctive_chaum_pedersen (message : ElGamalCiphertext)
  (r : ElementModQ) (k : ElementModP) (seed : ElementModQ) (plaintext : Z)
  : option DisjunctiveChaumPedersenProof :=
  let u := hash_ints [seed; 1] in
  let w := hash_ints [seed; 2] in
  let v := hash_ints [seed; 3] in
  if plaintext =? 0 then
    let a0 := g_pow_p u in
    let b0 := pow_mod_p k u in
    let a1 := mult_mod_p (g_pow_p v) (pow_mod_p (pad message) (Q - w)) in
    let b1 := mult_mod_p (mult_mod_p (g_pow_p w) (pow_mod_p k v))
                (pow_mod_p (data message) (Q - w)) in
    let c := disjunctive_challenge message a0 b0 a1 b1 in
    let c0 := (c - w) mod Q in
    Some (mkDisjunctiveProof a0 b0 a1 b1 c0 w c
            (add_mod_q u (mult_mod_q c0 r)) v)
  else if plaintext =? 1 then
    let a1 := g_pow_p u in
    let b1 := pow_mod_p k u in
    let a0 := mult_mod_p (g_pow_p v) (pow_mod_p (pad message) (Q - w)) in
    let b0 := mult_mod_p (pow_mod_p k v) (pow_mod_p (data message) (Q - w)) in
    let c := disjunctive_challenge message a0 b0 a1 b1 in
    let c1 := (c - w) mod Q in
    Some (mkDisjunctiveProof a0 b0 a1 b1 w c1 c v
            (add_mod_q u (mult_mod_q c1 r)))
  else None.

Definition disjunctive_is_valid (proof : DisjunctiveChaumPedersenProof)
  (message : ElGamalCiphertext) (k : ElementModP) : bool :=
  (dp_c proof =? disjunctive_challenge message (dp_a0 proof) (dp_b0 proof)
                   (dp_a1 proof) (dp_b1 proof))
  && (dp_c proof =? add_mod_q (dp_c0 proof) (dp_c1 proof))
  && (g_pow_p (dp_v0 proof)
      =? mult_mod_p (dp_a0 proof) (pow_mod_p (pad message) (dp_c0 proof)))
  && (pow_mod_p k (dp_v0 proof)
      =? mult_mod_p (dp_b0 proof) (pow_mod_p (data message) (dp_c0 proof)))
  && (g_pow_p (dp_v1 proof)
      =? mult_mod_p (dp_a1 proof) (pow_mod_p (pad message) (dp_c1 proof)))
  && (mult_mod_p (g_pow_p (dp_c1 proof)) (pow_mod_p k (dp_v1 proof))
      =? mult_mod_p (dp_b1 proof) (pow_mod_p (data message) (dp_c1 proof))).

(** Modelled from the spec: the module [ballot] is missing; the
    self-verification of a selection checks the description hash and the
    disjunctive proof against the public key. *)
Definition ref_selection_is_valid_encryption (s : CyphertextBallotSelection)
  (seed_hash : ElementModQ) (k : ElementModP) : bool :=
  (cs_description_hash s =? seed_hash)
  && match cs_message s, cs_proof s with
     | Some message, Some proof => disjunctive_is_valid proof message k
     | _, _ => false
     end.

(** Modelled from the spec: the module [ballot] is missing; the
    accumulated ciphertext is the homomorphic sum of all selection
    ciphertexts and the aggregate nonce the sum of their nonces.  Reading
    an attribute of an entry that is [None] raises. *)
Fixpoint accumulate_from (acc : ElGamalCiphertext)
  (selections : list (option CyphertextBallotSelection))
  : outcome ElGamalCiphertext :=
  match selections with
  | [] => Returns acc
  | Some s :: rest =>
      match cs_message s with
      | Some message => accumulate_from (elgamal_add acc message) rest
      | None => Raises "TypeError"
      end
  | None :: _ => Raises "AttributeError"
  end.

Definition ref_elgamal_accumulate (c : CyphertextBallotContest)
  : outcome ElGamalCiphertext :=
  accumulate_from (mkElGamalCiphertext 1 1) (cc_ballot_selections c).

Fixpoint aggregate_from (acc : ElementModQ)
  (selections : list (option CyphertextBallotSelection))
  : outcome ElementModQ :=
  match selections with
  | [] => Returns acc
  | Some s :: rest =>
      match cs_nonce s with
      | Some nonce => aggregate_from (add_mod_q acc nonce) rest
      | None => Raises "TypeError"
      end
  | None :: _ => Raises "AttributeError"
  end.

Definition ref_aggregate_nonce (c : CyphertextBallotContest)
  : outcome ElementModQ :=
  aggregate_from 0 (cc_ballot_selections c).

(** Modelled from the spec: the module [chaum_pedersen] is missing; the
    constant proof shows knowledge of the aggregate nonce [r] with
    [data / g^constant = public_key^r]; its challenge is the hash of the
    public key, the commitment and the accumulated ciphertext. *)
Definition constant_challenge (message : ElGamalCiphertext)
  (k a b : ElementModP) : ElementModQ :=
  hash_ints [k; a; b; pad message; data message].

Definition ref_make_constant_chaum_pedersen (message : ElGamalCiphertext)
  (constant : Z) (r : ElementModQ) (k : ElementModP) (seed : ElementModQ)
  : outcome (option ConstantChaumPedersenProof) :=
  if constant <? 0 then Returns None
  else
    let u := hash_ints [seed; 1] in
    let a := g_pow_p u in
    let b := pow_mod_p k u in
    let c := constant_challenge message k a b in
    Returns (Some (mkConstantProof a b c (add_mod_q u (mult_mod_q c r)) constant)).

Definition constant_is_valid (proof : ConstantChaumPedersenProof)
  (message : ElGamalCiphertext) (k : ElementModP) : bool :=
  (kp_c proof =? constant_challenge message k (kp_a proof) (kp_b proof))
  && (g_pow_p (kp_v proof)
      =? mult_mod_p (kp_a proof) (pow_mod_p (pad message) (kp_c proof)))
  && (mult_mod_p (g_pow_p (mult_mod_q (kp_constant proof) (kp_c proof)))
        (pow_mod_p k (kp_v proof))
      =? mult_mod_p (kp_b proof) (pow_mod_p (data message) (kp_c proof))).

(** Modelled from the spec: the module [ballot] is missing; the
    self-verification of a contest checks the description hash and the
    constant proof against the recomputed accumulated ciphertext. *)
Definition ref_contest_is_valid_encryption (c : CyphertextBallotContest)
  (seed_hash : ElementModQ) (k : ElementModP) : outcome bool :=
  accumulated <- ref_elgamal_accumulate c ;;
  Returns ((cc_description_hash c =? seed_hash)
           && match cc_proof c with
              | Some proof => constant_is_valid proof accumulated k
              | None => false
              end).

(** Modelled from the spec: the module [ballot] is missing; the
    self-verification of a ballot checks the extended base hash and
    verifies each contest. *)
Fixpoint contests_are_valid (contests : list (option CyphertextBallotContest))
  (k : ElementModP) : outcome bool :=
  match contests with
  | [] => Returns true
  | Some c :: rest =>
      valid <- ref_contest_is_valid_encryption c (cc_description_hash c) k ;;
      others <- contests_are_valid rest k ;;
      Returns (valid && others)
  | None :: _ => Raises "AttributeError"
  end.

Definition ref_ballot_is_valid_encryption (b : CyphertextBallot)
  (seed_hash : ElementModQ) (k : ElementModP) : outcome bool :=
  valid <- contests_are_valid (cb_contests b) k ;;
  Returns ((cb_description_hash b =? seed_hash) && valid).

(** Fresh strings are placed above the addresses the examples use. *)
Definition ref_fstring_addr (s : string) : N :=
  (4096 + Z.to_N (int_of_str s))%N.

Definition X : Collaborators :=
  mkCollaborators ref_selection_crypto_hash ref_contest_crypto_hash
    ref_selection_is_valid ref_to_int ref_contest_is_valid
    ref_ballot_is_valid ref_Nonces_getitem ref_elgamal_encrypt
    ref_make_disjunctive_chaum_pedersen ref_selection_is_valid_encryption
    ref_elgamal_accumulate ref_aggregate_nonce
    ref_make_constant_chaum_pedersen ref_contest_is_valid_encryption
    ref_ballot_is_valid_encryption ref_hash_elems ref_fstring_addr.

(** *** Concrete elections and ballots *)

Definition str (addr : N) (chars : string) : PyStr := mkPyStr addr chars.

(** The two-candidate, one-seat contest of the end-to-end scenario. *)
Definition id_A : PyStr := str 1 "A".
Definition id_B : PyStr := str 2 "B".
Definition id_contest : PyStr := str 3 "contest-1".
Definition id_style : PyStr := str 4 "style-1".
Definition id_ballot : PyStr := str 5 "ballot-1".

Definition desc_A : SelectionDescription := mkSelectionDescription id_A id_A 0.
Definition desc_B : SelectionDescription := mkSelectionDescription id_B id_B 1.
Definition desc_contest : ContestDescription :=
  mkContestDescription id_contest 0 [desc_A; desc_B] 1 1.

Definition election : Election :=
  mkElection (fun _ => mkBallotStyle id_style) (fun _ => [desc_contest]).

Definition public_key : ElementModP := g_pow_p 123.
Definition context : CyphertextElection := mkCyphertextElection public_key 77.

(** The voter selects [A] only; the ids are the description's objects. *)
Definition vote_A : PlaintextBallotSelection :=
  mkPlaintextBallotSelection id_A (PyText "True") false.
Definition contest_A : PlaintextBallotContest :=
  mkPlaintextBallotContest id_contest [vote_A].
Definition ballot_A : PlaintextBallot :=
  mkPlaintextBallot id_ballot id_style [contest_A].

(** A ballot that leaves the contest out. *)
Definition ballot_empty : PlaintextBallot :=
  mkPlaintextBallot id_ballot id_style [].

(** Both candidates selected in the one-seat contest: refused by the
    validation of the contest. *)
Definition vote_B : PlaintextBallotSelection :=
  mkPlaintextBallotSelection id_B (PyText "True") false.
Definition contest_over : PlaintextBallotContest :=
  mkPlaintextBallotContest id_contest [vote_A; vote_B].
Definition ballot_over : PlaintextBallot :=
  mkPlaintextBallot id_ballot id_style [contest_over].

(** A two-seat contest and a selection that carries two votes: the
    contest passes its validation, the selection does not. *)
Definition desc_two_seats : ContestDescription :=
  mkContestDescription id_contest 0 [desc_A; desc_B] 2 2.
Definition vote_cumulative : PlaintextBallotSelection :=
  mkPlaintextBallotSelection id_A (PyInt 2) false.
Definition contest_cumulative : PlaintextBallotContest :=
  mkPlaintextBallotContest id_contest [vote_cumulative].

(** A one-seat race whose ids are longer strings, and a ballot read from a
    file: its ids have the characters of the descriptions' ids and are held
    in string objects of their own. *)
Definition id_alice : PyStr := str 11 "candidate-alice".
Definition id_bob : PyStr := str 12 "candidate-bob".
Definition id_race : PyStr := str 13 "race-1".
Definition desc_alice : SelectionDescription :=
  mkSelectionDescription id_alice id_alice 0.
Definition desc_bob : SelectionDescription :=
  mkSelectionDescription id_bob id_bob 1.
Definition desc_race : ContestDescription :=
  mkContestDescription id_race 0 [desc_alice; desc_bob] 1 1.

Definition id_alice_read : PyStr := str 21 "candidate-alice".
Definition id_race_read : PyStr := str 23 "race-1".
Definition vote_alice_read : PlaintextBallotSelection :=
  mkPlaintextBallotSelection id_alice_read (PyText "True") false.
Definition contest_alice_read : PlaintextBallotContest :=
  mkPlaintextBallotContest id_race [vote_alice_read].
Definition contest_race_read : PlaintextBallotContest :=
  mkPlaintextBallotContest id_race_read
    [mkPlaintextBallotSelection id_alice (PyText "True") false].
Definition ballot_read : PlaintextBallot :=
  mkPlaintextBallot id_ballot id_style [contest_race_read].

(** A style with both contests, and a ballot that answers both with the
    descriptions' own id objects. *)
Definition election_two : Election :=
  mkElection (fun _ => mkBallotStyle id_style) (fun _ => [desc_contest; desc_race]).
Definition contest_alice : PlaintextBallotContest :=
  mkPlaintextBallotContest id_race
    [mkPlaintextBallotSelection id_alice (PyText "True") false].
Definition ballot_two : PlaintextBallot :=
  mkPlaintextBallot id_ballot id_style [contest_A; contest_alice].

(** Two selections for [A], the second one false. *)
Definition vote_A_false : PlaintextBallotSelection :=
  mkPlaintextBallotSelection id_A (PyText "False") false.
Definition contest_dup : PlaintextBallotContest :=
  mkPlaintextBallotContest id_contest [vote_A; vote_A_false].
End Reference.

(** ** The loops of [encrypt_contest], as lists

    What the two loops hand to [enc], described without the loop state: for
    each description the voter's selections it matches with [is], the one of
    them that is kept, and the placeholders that follow. *)

Definition matches (description : SelectionDescription)
  (selection : PlaintextBallotSelection) : bool :=
  py_is (ps_object_id selection) (sd_object_id description).

Definition matching (description : SelectionDescription)
  (selections : list PlaintextBallotSelection) : list PlaintextBallotSelection :=
  filter (matches description) selections.

(** The selection whose encryption is appended for [description]. *)
Definition chosen_selection (description : SelectionDescription)
  (selections : list PlaintextBallotSelection) : PlaintextBallotSelection :=
  last (matching description selections) (selection_from description false false).

(** The sum of the plaintext representations of a list of selections. *)
Definition votes (X : Collaborators) (selections : list PlaintextBallotSelection) : Z :=
  fold_right (fun s acc => to_int X s + acc) 0 selections.

(** [selection_count] when the first loop is over. *)
Definition real_count (X : Collaborators) (contest : PlaintextBallotContest)
  (descriptions : list SelectionDescription) : Z :=
  fold_right
    (fun d acc => votes X (matching d (pc_ballot_selections contest)) + acc)
    0 descriptions.

(** [highest_sequence_order] when the first loop is over, from [h]. *)
Definition highest_from (h : Z) (descriptions : list SelectionDescription) : Z :=
  fold_left
    (fun h d => if sd_sequence_order d >? h then sd_sequence_order d else h)
    descriptions h.

Definition real_plan (contest : PlaintextBallotContest)
  (descriptions : list SelectionDescription)
  : list (PlaintextBallotSelection * SelectionDescription) :=
  map (fun d => (chosen_selection d (pc_ballot_selections contest), d))
    descriptions.

Definition placeholder_entry (X : Collaborators)
  (contest_description : ContestDescription) (highest count : Z) (i : Z)
  : PlaintextBallotSelection * SelectionDescription :=
  let placeholder_description :=
    placeholder_selection_description_from X contest_description (highest + i) in
  (selection_from placeholder_description true
     (count + i <? cd_number_elected contest_description),
   placeholder_description).

Definition placeholder_plan (X : Collaborators)
  (contest_description : ContestDescription) (highest count : Z)
  : list (PlaintextBallotSelection * SelectionDescription) :=
  map (placeholder_entry X contest_description highest count)
    (range (cd_number_elected contest_description)).

(** The pairs given to [encrypt_selection], in the order of the output. *)
Definition contest_plan (X : Collaborators) (contest : PlaintextBallotContest)
  (contest_description : ContestDescription)
  : list (PlaintextBallotSelection * SelectionDescription) :=
  real_plan contest (cd_ballot_selections contest_description)
  ++ placeholder_plan X contest_description
       (highest_from 0 (cd_ballot_selections contest_description))
       (real_count X contest (cd_ballot_selections contest_description)).

(** The number of entries whose plaintext representation is true. *)
Definition true_count (X : Collaborators)
  (plan : list (PlaintextBallotSelection * SelectionDescription)) : nat :=
  List.length (filter (fun p => to_int X (fst p) =? 1) plan).

(** The contest nonce [encrypt_contest] derives from its seed. *)
Definition contest_nonce_of (X : Collaborators)
  (contest_description : ContestDescription) (seed : ElementModQ) : ElementModQ :=
  Nonces_getitem X (mkNonces (contest_crypto_hash X contest_description) seed)
    (cd_sequence_order contest_description).

(** The contests given to [encrypt_contest] by the inner loop of
    [encrypt_ballot] for one description: one per contest of the ballot. *)
Definition contest_row (description : ContestDescription)
  (contests : list PlaintextBallotContest)
  : list (PlaintextBallotContest * ContestDescription) :=
  map (fun contest =>
         (if py_is (pc_object_id contest) (cd_object_id description)
          then contest else contest_from description, description))
    contests.

(** The contests given to [encrypt_contest] by the loops of [encrypt_ballot]:
    one per pair of a description and a contest of the ballot. *)
Definition ballot_plan (descriptions : list ContestDescription)
  (contests : list PlaintextBallotContest)
  : list (PlaintextBallotContest * ContestDescription) :=
  flat_map (fun description => contest_row description contests) descriptions.

(** The call of [enc] on the pair [p] returned [r]. *)
Definition returned {R : Type}
  (enc : PlaintextBallotContest -> ContestDescription -> outcome R)
  (p : PlaintextBallotContest * ContestDescription) (r : R) : Prop :=
  enc (fst p) (snd p) = Returns r.

(** ** The compositor object *)

(** [EncryptionCompositor]: the election and the encryption context kept
    for later calls. *)
Record EncryptionCompositor : Type := mkEncryptionCompositor {
  _metadata : Election;
  _encryption : CyphertextElection
}.

(** [EncryptionCompositor.__init__(self, election_metadata, encryption_context)] *)
Definition EncryptionCompositor_init (election_metadata : Election)
  (encryption_context : CyphertextElection) : EncryptionCompositor :=
  mkEncryptionCompositor election_metadata encryption_context.

(** [EncryptionCompositor.encrypt(self, ballot)]: [encrypt_ballot] with
    [should_verify_proofs] left to its default; [random_master_nonce] is
    the value [randbelow(Q)] draws during the call. *)
Definition EncryptionCompositor_encrypt (X : Collaborators)
  (self : EncryptionCompositor) (ballot : PlaintextBallot)
  (random_master_nonce : Z) : outcome (option CyphertextBallot) :=
  encrypt_ballot X ballot (_metadata self) (_encryption self)
    random_master_nonce true.

(** * Properties *)

(** ** The loops and their lists *)

Lemma last_cons_default {A : Type} (a d : A) (l : list A) :
  last (a :: l) d = last l a.
Proof.
  revert a d. induction l as [|b l IH]; intros a d; [reflexivity|].
  change (last (a :: b :: l) d) with (last (b :: l) d).
  rewrite (IH b d), (IH b a). reflexivity.
Qed.

Lemma last_map {A B : Type} (f : A -> B) (l : list A) (d : A) :
  last (map f l) (f d) = f (last l d).
Proof.
  induction l as [|a [|b l] IH]; try reflexivity.
  exact IH.
Qed.

Section Loops.
Variable X : Collaborators.
Context {R : Type}.
Variable enc : PlaintextBallotSelection -> SelectionDescription -> R.

Lemma selection_loop_cons description s rest has_selection count var :
  selection_loop X enc description (s :: rest) (has_selection, count, var)
  = selection_loop X enc description rest
      (if matches description s
       then (true, count + to_int X s, enc s description)
       else (has_selection, count, var)).
Proof. reflexivity. Qed.

Lemma matching_cons description s rest :
  matching description (s :: rest)
  = if matches description s
    then s :: matching description rest
    else matching description rest.
Proof. reflexivity. Qed.

Lemma selection_loop_spec description selections has_selection count var :
  selection_loop X enc description selections (has_selection, count, var)
  = (match matching description selections with
     | [] => has_selection
     | _ :: _ => true
     end,
     count + votes X (matching description selections),
     last (map (fun s => enc s description) (matching description selections)) var).
Proof.
  revert has_selection count var.
  induction selections as [|s rest IH]; intros has_selection count var.
  - cbn. f_equal. f_equal. lia.
  - rewrite selection_loop_cons, matching_cons.
    destruct (matches description s) eqn:E; rewrite IH.
    + cbn [map votes fold_right]. rewrite last_cons_default.
      fold (votes X (matching description rest)).
      destruct (matching description rest); f_equal; f_equal; lia.
    + reflexivity.
Qed.

Lemma description_step_spec contest es count h var description :
  description_step X enc contest (es, count, h, var) description
  = (es ++ [enc (chosen_selection description (pc_ballot_selections contest))
              description],
     count + votes X (matching description (pc_ballot_selections contest)),
     (if sd_sequence_order description >? h
      then sd_sequence_order description else h),
     enc (chosen_selection description (pc_ballot_selections contest))
       description).
Proof.
  unfold description_step. rewrite selection_loop_spec.
  unfold chosen_selection.
  destruct (matching description (pc_ballot_selections contest)) as [|s l] eqn:E.
  - reflexivity.
  - cbn [negb]. rewrite <- (last_map (fun s => enc s description)).
    cbn [map]. rewrite !last_cons_default. reflexivity.
Qed.

Lemma description_fold_spec contest descriptions es count h var :
  exists var',
    fold_left (description_step X enc contest) descriptions (es, count, h, var)
    = (es ++ map (fun p => enc (fst p) (snd p)) (real_plan contest descriptions),
       count + real_count X contest descriptions,
       highest_from h descriptions, var').
Proof.
  revert es count h var.
  induction descriptions as [|d rest IH]; intros es count h var.
  - exists var. cbn. rewrite app_nil_r. f_equal. f_equal. f_equal. lia.
  - cbn [fold_left]. rewrite description_step_spec.
    edestruct IH as [var' ->]. exists var'.
    cbn [real_plan map fst snd real_count fold_right highest_from fold_left].
    rewrite <- app_assoc. cbn [app].
    f_equal. f_equal. f_equal. unfold real_count. lia.
Qed.

Lemma placeholder_fold_spec contest_description highest n a es count var :
  exists count' var',
    fold_left (placeholder_step X enc contest_description highest)
      (map Z.of_nat (seq a n)) (es, count, var)
    = (es ++ map (fun p => enc (fst p) (snd p))
               (map (placeholder_entry X contest_description highest
                       (count - Z.of_nat a))
                  (map Z.of_nat (seq a n))),
       count', var').
Proof.
  revert a es count var.
  induction n as [|n IH]; intros a es count var.
  - exists count, var. cbn. rewrite app_nil_r. reflexivity.
  - cbn [seq map fold_left]. unfold placeholder_step at 2.
    destruct (count <? cd_number_elected contest_description) eqn:E.
    + edestruct (IH (S a) (es ++ [enc (selection_from
         (placeholder_selection_description_from X contest_description
            (highest + Z.of_nat a)) true true)
         (placeholder_selection_description_from X contest_description
            (highest + Z.of_nat a))]) (count + 1)) as [count' [var' ->]].
      exists count', var'. rewrite <- app_assoc. cbn [app].
      f_equal. f_equal. f_equal. f_equal.
      * unfold placeholder_entry. cbn [fst snd].
        replace (count - Z.of_nat a + Z.of_nat a) with count by lia.
        rewrite E. reflexivity.
      * replace (count + 1 - Z.of_nat (S a)) with (count - Z.of_nat a) by lia.
        reflexivity.
    + edestruct (IH (S a) (es ++ [enc (selection_from
         (placeholder_selection_description_from X contest_description
            (highest + Z.of_nat a)) true false)
         (placeholder_selection_description_from X contest_description
            (highest + Z.of_nat a))]) count) as [count' [var' ->]].
      exists count', var'. rewrite <- app_assoc. cbn [app].
      f_equal. f_equal. f_equal. f_equal.
      * unfold placeholder_entry. cbn [fst snd].
        replace (count - Z.of_nat a + Z.of_nat a) with count by lia.
        rewrite E. reflexivity.
      * rewrite !map_map. apply map_ext_in. intros i Hi.
        apply in_seq in Hi. unfold placeholder_entry. cbn [fst snd].
        apply Z.ltb_ge in E.
        replace (count - Z.of_nat (S a) + Z.of_nat i
                 <? cd_number_elected contest_description) with false
          by (symmetry; apply Z.ltb_ge; lia).
        replace (count - Z.of_nat a + Z.of_nat i
                 <? cd_number_elected contest_description) with false
          by (symmetry; apply Z.ltb_ge; lia).
        reflexivity.
Qed.

(** The list built by the two loops is the image of [contest_plan] by
    [enc], whatever the variable [encrypted_selection] held at first. *)
Lemma contest_loops_spec unbound contest contest_description :
  fst (contest_loops X enc unbound contest contest_description)
  = map (fun p => enc (fst p) (snd p))
      (contest_plan X contest contest_description).
Proof.
  unfold contest_loops, contest_plan.
  destruct (description_fold_spec contest
              (cd_ballot_selections contest_description) [] 0 0 unbound)
    as [var' ->].
  unfold range.
  destruct (placeholder_fold_spec contest_description
              (highest_from 0 (cd_ballot_selections contest_description))
              (Z.to_nat (cd_number_elected contest_description)) 0
              ([] ++ map (fun p => enc (fst p) (snd p))
                       (real_plan contest (cd_ballot_selections contest_description)))
              (0 + real_count X contest (cd_ballot_selections contest_description))
              var')
    as [count' [var'' ->]].
  cbn [fst app]. rewrite map_app. f_equal.
  unfold placeholder_plan, range. cbn [Z.of_nat].
  replace (0 + real_count X contest (cd_ballot_selections contest_description) - 0)
    with (real_count X contest (cd_ballot_selections contest_description)) by lia.
  reflexivity.
Qed.
End Loops.

(** What a call of [encrypt_contest] that returns a contest has done. *)
Lemma encrypt_contest_returns X contest contest_description k seed verify ec :
  encrypt_contest X contest contest_description k seed verify = Returns (Some ec) ->
  contest_is_valid X contest (cd_object_id contest_description)
    (Z.of_nat (List.length (cd_ballot_selections contest_description)))
    (cd_number_elected contest_description)
    (cd_votes_allowed contest_description) = true
  /\ cc_ballot_selections ec
     = map (fun p => encrypt_selection X (fst p) (snd p) k
                       (contest_nonce_of X contest_description seed) false true)
         (contest_plan X contest contest_description)
  /\ cc_nonce ec = Some (contest_nonce_of X contest_description seed)
  /\ cc_object_id ec = pc_object_id contest
  /\ cc_description_hash ec = contest_crypto_hash X contest_description.
Proof.
  unfold encrypt_contest. fold (contest_nonce_of X contest_description seed).
  destruct (contest_is_valid X contest _ _ _ _); cbn [negb]; [|discriminate].
  pose proof (contest_loops_spec X
    (fun selection description =>
       encrypt_selection X selection description k
         (contest_nonce_of X contest_description seed) false true)
    None contest contest_description) as Hloops.
  destruct (contest_loops X _ None contest contest_description) as [es count].
  cbn [fst] in Hloops. subst es.
  destruct (elgamal_accumulate X _) as [acc|]; cbn [obind]; [|discriminate].
  destruct (aggregate_nonce X _) as [agg|]; cbn [obind]; [|discriminate].
  destruct (make_constant_chaum_pedersen X _ _ _ _ _) as [proof|];
    cbn [obind]; [|discriminate].
  destruct verify; cbn [negb].
  - destruct (contest_is_valid_encryption X _ _ _) as [[|]|]; cbn [obind];
      try discriminate.
    intros [= <-]. cbn. auto.
  - intros [= <-]. cbn. auto.
Qed.

(** ** Counting the true selections *)

Lemma filter_key_unique {A : Type} (key : A -> N) (p : A -> bool) (a : N)
  (l : list A) :
  NoDup (map key l) ->
  (forall x, p x = true -> key x = a) ->
  (List.length (filter p l) <= 1)%nat.
Proof.
  intros Hnd Hp. induction l as [|x l IH]; cbn; [lia|].
  inversion Hnd as [|? ? Hx Hl]; subst.
  destruct (p x) eqn:Ex; [|auto].
  cbn. assert (filter p l = []) as ->; [|cbn; lia].
  destruct (filter p l) as [|y l'] eqn:Ef; [reflexivity|exfalso].
  assert (In y (filter p l)) as Hy by (rewrite Ef; left; reflexivity).
  apply filter_In in Hy. destruct Hy as [Hy Hpy].
  apply Hx. rewrite (Hp x Ex), <- (Hp y Hpy). apply in_map. exact Hy.
Qed.

(** Strings with distinct characters are distinct objects, as soon as one
    object has one content. *)
Lemma distinct_ids_distinct_objects (ids : list PyStr) :
  (forall a b, In a ids -> In b ids -> py_addr a = py_addr b ->
               py_chars a = py_chars b) ->
  NoDup (map py_chars ids) -> NoDup (map py_addr ids).
Proof.
  induction ids as [|a ids IH]; intros Hheap Hnd; cbn; constructor.
  - inversion Hnd as [|? ? Ha _]; subst. intros Hin.
    apply in_map_iff in Hin. destruct Hin as [b [Hb Hinb]].
    apply Ha. apply in_map_iff. exists b. split; [|exact Hinb].
    apply Hheap; [right; exact Hinb|left; reflexivity|exact Hb].
  - inversion Hnd; subst. apply IH; [|assumption].
    intros x y Hx Hy. apply Hheap; right; assumption.
Qed.

Lemma true_count_app X l1 l2 :
  true_count X (l1 ++ l2) = (true_count X l1 + true_count X l2)%nat.
Proof.
  unfold true_count. rewrite filter_app, length_app. reflexivity.
Qed.

Section Counting.
Variable X : Collaborators.

(** The 0/1 representation reads the text written by [selection_from]. *)
Hypothesis to_int_text :
  forall object_id is_affirmative is_placeholder,
    to_int X (mkPlaintextBallotSelection object_id
                (PyText (str_of_bool is_affirmative)) is_placeholder)
    = if is_affirmative then 1 else 0.

Lemma votes_nonneg selections :
  (forall s, In s selections -> to_int X s = 0 \/ to_int X s = 1) ->
  0 <= votes X selections.
Proof.
  induction selections as [|s l IH]; intros H; cbn; [lia|].
  assert (0 <= votes X l) by (apply IH; intros; apply H; right; assumption).
  fold (votes X l). destruct (H s (or_introl eq_refl)); lia.
Qed.

Lemma real_count_step contest d descriptions :
  real_count X contest (d :: descriptions)
  = votes X (matching d (pc_ballot_selections contest))
    + real_count X contest descriptions.
Proof. reflexivity. Qed.

Lemma real_count_nil object_id descriptions :
  real_count X (mkPlaintextBallotContest object_id []) descriptions = 0.
Proof.
  induction descriptions as [|d ds IH]; [reflexivity|].
  rewrite real_count_step, IH. reflexivity.
Qed.

Lemma real_count_cons object_id s rest descriptions :
  real_count X (mkPlaintextBallotContest object_id (s :: rest)) descriptions
  = to_int X s
    * Z.of_nat (List.length (filter (fun d => matches d s) descriptions))
    + real_count X (mkPlaintextBallotContest object_id rest) descriptions.
Proof.
  induction descriptions as [|d ds IH]; [cbn; lia|].
  rewrite !real_count_step, IH. cbn [pc_ballot_selections filter].
  rewrite matching_cons.
  destruct (matches d s); cbn [votes fold_right List.length];
    fold (votes X (matching d rest)); lia.
Qed.

(** The running count is bounded by the voter's own count when no
    selection matches two descriptions. *)
Lemma real_count_bounds contest descriptions :
  NoDup (map (fun d => py_addr (sd_object_id d)) descriptions) ->
  (forall s, In s (pc_ballot_selections contest) ->
             to_int X s = 0 \/ to_int X s = 1) ->
  0 <= real_count X contest descriptions
       <= votes X (pc_ballot_selections contest).
Proof.
  intros Hnd. destruct contest as [object_id selections].
  cbn [pc_ballot_selections].
  induction selections as [|s rest IH]; intros H01.
  - rewrite real_count_nil. cbn. lia.
  - rewrite real_count_cons. cbn [votes fold_right]. fold (votes X rest).
    assert (0 <= real_count X (mkPlaintextBallotContest object_id rest) descriptions
                 <= votes X rest) as Hrest
        by (apply IH; intros; apply H01; right; assumption).
    pose proof (filter_key_unique (fun d => py_addr (sd_object_id d))
                  (fun d => matches d s) (py_addr (ps_object_id s))
                  descriptions Hnd) as Hone.
    assert (List.length (filter (fun d => matches d s) descriptions) <= 1)%nat
      as Hlen.
    { apply Hone. intros d Hd. unfold matches, py_is in Hd.
      apply N.eqb_eq in Hd. symmetry. exact Hd. }
    destruct (H01 s (or_introl eq_refl)) as [E|E]; rewrite E; nia.
Qed.

(** Among the real selections as many are true as were counted, when no
    description is matched by two selections of the voter. *)
Lemma real_plan_true_count contest descriptions :
  NoDup (map (fun s => py_addr (ps_object_id s)) (pc_ballot_selections contest)) ->
  (forall s, In s (pc_ballot_selections contest) ->
             to_int X s = 0 \/ to_int X s = 1) ->
  Z.of_nat (true_count X (real_plan contest descriptions))
  = real_count X contest descriptions.
Proof.
  intros Hnd H01. induction descriptions as [|d ds IH]; [reflexivity|].
  cbn [real_plan map real_count fold_right].
  fold (real_plan contest ds). fold (real_count X contest ds).
  rewrite <- IH. unfold true_count at 1. cbn [filter fst].
  fold (true_count X (real_plan contest ds)).
  pose proof (filter_key_unique (fun s => py_addr (ps_object_id s))
                (matches d) (py_addr (sd_object_id d))
                (pc_ballot_selections contest) Hnd) as Hone.
  assert (List.length (matching d (pc_ballot_selections contest)) <= 1)%nat
    as Hlen.
  { apply Hone. intros s Hs. unfold matches, py_is in Hs.
    apply N.eqb_eq in Hs. exact Hs. }
  unfold chosen_selection.
  destruct (matching d (pc_ballot_selections contest)) as [|s [|s' l]] eqn:Em.
  - cbn [last votes fold_right]. unfold selection_from.
    rewrite to_int_text. cbn. unfold true_count. lia.
  - cbn [last votes fold_right].
    assert (In s (pc_ballot_selections contest)) as Hin.
    { assert (In s (matching d (pc_ballot_selections contest))) as Hs
        by (rewrite Em; left; reflexivity).
      apply filter_In in Hs. tauto. }
    destruct (H01 s Hin) as [E|E]; rewrite E.
    + change (0 =? 1) with false. cbn iota. unfold true_count. lia.
    + change (1 =? 1) with true. cbn iota. cbn [List.length].
      rewrite Nat2Z.inj_succ. unfold true_count. lia.
  - cbn in Hlen. lia.
Qed.

Lemma placeholder_filter_length count number_elected n :
  0 <= count ->
  Z.of_nat (List.length
              (filter (fun i => count + i <? number_elected)
                 (map Z.of_nat (seq 0 n))))
  = Z.min (Z.of_nat n) (Z.max 0 (number_elected - count)).
Proof.
  intros Hc. induction n as [|n IH]; [cbn; lia|].
  rewrite seq_S, map_app, filter_app, length_app. cbn [plus map filter].
  rewrite Nat2Z.inj_add, IH.
  destruct (count + Z.of_nat n <? number_elected) eqn:E.
  - apply Z.ltb_lt in E. cbn [List.length]. lia.
  - apply Z.ltb_ge in E. cbn [List.length]. lia.
Qed.

(** The placeholders fill the seats the voter left. *)
Lemma placeholder_plan_true_count contest_description highest count :
  0 <= count <= cd_number_elected contest_description ->
  Z.of_nat (true_count X (placeholder_plan X contest_description highest count))
  = cd_number_elected contest_description - count.
Proof.
  intros Hc. unfold true_count, placeholder_plan, range.
  assert (forall l,
    filter (fun p => to_int X (fst p) =? 1)
      (map (placeholder_entry X contest_description highest count) l)
    = map (placeholder_entry X contest_description highest count)
        (filter (fun i => count + i <? cd_number_elected contest_description) l))
    as Hfilter.
  { induction l as [|i l IHl]; [reflexivity|].
    cbn [map filter]. rewrite IHl.
    unfold placeholder_entry at 1. cbn [fst]. unfold selection_from.
    rewrite to_int_text.
    destruct (count + i <? cd_number_elected contest_description); reflexivity. }
  rewrite Hfilter, length_map, placeholder_filter_length by lia. lia.
Qed.

(** With at most [number_elected] true selections and no duplicated
    object, the plan has exactly [number_elected] true entries. *)
Lemma contest_plan_true_count contest contest_description :
  NoDup (map (fun s => py_addr (ps_object_id s)) (pc_ballot_selections contest)) ->
  NoDup (map (fun d => py_addr (sd_object_id d))
           (cd_ballot_selections contest_description)) ->
  (forall s, In s (pc_ballot_selections contest) ->
             to_int X s = 0 \/ to_int X s = 1) ->
  votes X (pc_ballot_selections contest) <= cd_number_elected contest_description ->
  Z.of_nat (true_count X (contest_plan X contest contest_description))
  = cd_number_elected contest_description.
Proof.
  intros Hs Hd H01 Hle. unfold contest_plan.
  rewrite true_count_app, Nat2Z.inj_add.
  pose proof (real_count_bounds contest _ Hd H01) as Hb.
  rewrite real_plan_true_count by assumption.
  rewrite placeholder_plan_true_count by lia. lia.
Qed.
End Counting.

(** ** The loops of [encrypt_ballot] *)

Section BallotLoopFacts.
Context {R : Type}.
Variable enc : PlaintextBallotContest -> ContestDescription -> outcome R.

Lemma contest_loop_returns description contests acc l :
  contest_loop enc description contests acc = Returns l ->
  exists results,
    l = acc ++ results
    /\ Forall2 (returned enc) (contest_row description contests) results.
Proof.
  revert acc. induction contests as [|c rest IH]; intros acc; cbn.
  - intros [= <-]. exists []. rewrite app_nil_r. auto.
  - destruct (py_is (pc_object_id c) (cd_object_id description)) eqn:E.
    + destruct (enc c description) as [r|] eqn:Er; cbn; [|discriminate].
      intros H. apply IH in H. destruct H as [results [-> HF]].
      exists (r :: results). rewrite <- app_assoc. split; [reflexivity|].
      constructor; assumption.
    + destruct (enc (contest_from description) description) as [r|] eqn:Er;
        cbn; [|discriminate].
      intros H. apply IH in H. destruct H as [results [-> HF]].
      exists (r :: results). rewrite <- app_assoc. split; [reflexivity|].
      constructor; assumption.
Qed.

Lemma contest_loop_runs description contests acc results :
  Forall2 (returned enc) (contest_row description contests) results ->
  contest_loop enc description contests acc = Returns (acc ++ results).
Proof.
  revert acc results. induction contests as [|c rest IH]; intros acc results HF.
  - inversion HF. cbn. rewrite app_nil_r. reflexivity.
  - cbn [contest_row map] in HF. inversion HF as [|p r ps rs Hr Hrest]; subst.
    cbn [contest_loop]. unfold returned in Hr. cbn [fst snd] in Hr.
    destruct (py_is (pc_object_id c) (cd_object_id description));
      rewrite Hr; cbn [obind]; rewrite (IH _ rs Hrest), <- app_assoc;
      reflexivity.
Qed.

Lemma description_loop_returns descriptions contests acc l :
  description_loop enc descriptions contests acc = Returns l ->
  exists results,
    l = acc ++ results
    /\ Forall2 (returned enc) (ballot_plan descriptions contests) results.
Proof.
  revert acc. induction descriptions as [|d rest IH]; intros acc; cbn.
  - intros [= <-]. exists []. rewrite app_nil_r. auto.
  - destruct (contest_loop enc d contests acc) as [l1|] eqn:E1; cbn;
      [|discriminate].
    apply contest_loop_returns in E1. destruct E1 as [r1 [-> HF1]].
    intros H. apply IH in H. destruct H as [r2 [-> HF2]].
    exists (r1 ++ r2). rewrite app_assoc. split; [reflexivity|].
    apply Forall2_app; assumption.
Qed.

Lemma description_loop_runs descriptions contests acc results :
  Forall2 (returned enc) (ballot_plan descriptions contests) results ->
  description_loop enc descriptions contests acc = Returns (acc ++ results).
Proof.
  revert acc results.
  induction descriptions as [|d rest IH]; intros acc results HF.
  - inversion HF. cbn. rewrite app_nil_r. reflexivity.
  - cbn [ballot_plan flat_map] in HF.
    apply Forall2_app_inv_l in HF. destruct HF as [r1 [r2 [HF1 [HF2 ->]]]].
    cbn [description_loop].
    rewrite (contest_loop_runs d contests acc r1 HF1). cbn [obind].
    rewrite (IH _ r2 HF2), app_assoc. reflexivity.
Qed.
End BallotLoopFacts.

Lemma ballot_plan_length descriptions contests :
  List.length (ballot_plan descriptions contests)
  = (List.length descriptions * List.length contests)%nat.
Proof.
  induction descriptions as [|d rest IH]; [reflexivity|].
  cbn [ballot_plan flat_map]. unfold contest_row at 1.
  rewrite length_app, length_map.
  fold (ballot_plan rest contests). rewrite IH. reflexivity.
Qed.

(** What a call of [encrypt_ballot] that returns a ballot has done. *)
Lemma encrypt_ballot_returns X ballot election context r verify eb :
  encrypt_ballot X ballot election context r verify = Returns (Some eb) ->
  Forall2
    (returned (fun contest description =>
       encrypt_contest X contest description (elgamal_public_key context)
         (hash_elems X (crypto_extended_base_hash context)
            (pb_object_id ballot) r) true))
    (ballot_plan (get_contests_for election (pb_ballot_style ballot))
       (pb_contests ballot))
    (cb_contests eb)
  /\ cb_nonce eb = Some r
  /\ cb_tracking_id eb = Some "abc123"%string.
Proof.
  unfold encrypt_ballot.
  destruct (ballot_is_valid X ballot _); cbn [negb]; [|discriminate].
  destruct (description_loop _ _ _ []) as [l|] eqn:El; cbn [obind];
    [|discriminate].
  apply description_loop_returns in El. destruct El as [results [-> HF]].
  cbn [app] in *.
  destruct verify; cbn [negb].
  - destruct (ballot_is_valid_encryption X _ _ _) as [[|]|]; cbn [obind];
      try discriminate.
    intros [= <-]. cbn. auto.
  - intros [= <-]. cbn. auto.
Qed.

(** ** Failure of a child *)

(** C1 (the code departs from the claim).  A selection that
    [encrypt_selection] refused stays in the list as [None]:
    [encrypt_contest] called without verification never answers [None] for
    that reason, and every contest it returns holds the [None].  In the
    same way [encrypt_ballot] called without verification returns a ballot
    whose list of contests holds the [None] of each contest that
    [encrypt_contest] refused. *)
Theorem failed_child_is_kept X :
  (forall contest contest_description k seed,
     contest_is_valid X contest (cd_object_id contest_description)
       (Z.of_nat (List.length (cd_ballot_selections contest_description)))
       (cd_number_elected contest_description)
       (cd_votes_allowed contest_description) = true ->
     In None
       (map (fun p => encrypt_selection X (fst p) (snd p) k
                        (contest_nonce_of X contest_description seed) false true)
          (contest_plan X contest contest_description)) ->
     encrypt_contest X contest contest_description k seed false <> Returns None
     /\ forall verify ec,
          encrypt_contest X contest contest_description k seed verify
          = Returns (Some ec) ->
          In None (cc_ballot_selections ec))
  /\ (forall ballot election context r results,
        ballot_is_valid X ballot
          (bs_object_id (get_ballot_style election (pb_ballot_style ballot)))
        = true ->
        Forall2
          (returned (fun contest description =>
             encrypt_contest X contest description (elgamal_public_key context)
               (hash_elems X (crypto_extended_base_hash context)
                  (pb_object_id ballot) r) true))
          (ballot_plan (get_contests_for election (pb_ballot_style ballot))
             (pb_contests ballot))
          results ->
        In None results ->
        exists eb,
          encrypt_ballot X ballot election context r false = Returns (Some eb)
          /\ cb_contests eb = results
          /\ In None (cb_contests eb)).
Proof.
  split.
  - intros contest contest_description k seed Hvalid Hnone. split.
    + unfold encrypt_contest. rewrite Hvalid. cbn [negb].
      destruct (contest_loops X _ None contest contest_description) as [es count].
      destruct (elgamal_accumulate X _); cbn [obind]; [|discriminate].
      destruct (aggregate_nonce X _); cbn [obind]; [|discriminate].
      destruct (make_constant_chaum_pedersen X _ _ _ _ _); cbn [obind];
        discriminate.
    + intros verify ec Hec. apply encrypt_contest_returns in Hec.
      destruct Hec as [_ [-> _]]. exact Hnone.
  - intros ballot election context r results Hvalid HF Hnone.
    unfold encrypt_ballot. rewrite Hvalid. cbn [negb].
    rewrite (description_loop_runs _ _ _ [] results HF). cbn [obind app negb].
    eexists. split; [reflexivity|]. cbn. auto.
Qed.

(** The claim fails on the two-seat contest with a selection of two votes,
    and on the ballot whose contest is refused. *)
Lemma failed_child_is_kept_witness :
  encrypt_contest Reference.X Reference.contest_cumulative
    Reference.desc_two_seats Reference.public_key 55 false <> Returns None
  /\ exists eb,
       encrypt_ballot Reference.X Reference.ballot_over Reference.election
         Reference.context 900 false = Returns (Some eb)
       /\ cb_contests eb = [None]
       /\ In None (cb_contests eb).
Proof.
  destruct (failed_child_is_kept Reference.X) as [Hcontest Hballot].
  split.
  - apply Hcontest.
    + vm_compute. reflexivity.
    + vm_compute. left. reflexivity.
  - apply Hballot.
    + vm_compute. reflexivity.
    + match goal with
      | |- Forall2 ?P _ _ =>
          change (Forall2 P [(Reference.contest_over, Reference.desc_contest)] [None])
      end.
      constructor; [|constructor].
      unfold returned. cbn [fst snd]. vm_compute. reflexivity.
    + left. reflexivity.
Defined.

(** ** One contest per description *)

(** C2 (the code departs from the claim).  The inner loop of
    [encrypt_ballot] appends one encrypted contest for every pair of a
    contest description and a contest of the ballot: the returned ballot
    holds [len(descriptions) * len(ballot.contests)] contests, the results
    of [encrypt_contest] on these pairs, not one per description. *)
Theorem encrypt_ballot_contest_count X ballot election context r verify eb :
  encrypt_ballot X ballot election context r verify = Returns (Some eb) ->
  List.length (cb_contests eb)
  = (List.length (get_contests_for election (pb_ballot_style ballot))
     * List.length (pb_contests ballot))%nat
  /\ Forall2
       (returned (fun contest description =>
          encrypt_contest X contest description (elgamal_public_key context)
            (hash_elems X (crypto_extended_base_hash context)
               (pb_object_id ballot) r) true))
       (ballot_plan (get_contests_for election (pb_ballot_style ballot))
          (pb_contests ballot))
       (cb_contests eb).
Proof.
  intros H. apply encrypt_ballot_returns in H. destruct H as [HF _].
  split; [|exact HF].
  apply Forall2_length in HF. rewrite <- HF. apply ballot_plan_length.
Qed.

(** A ballot that omits the only contest of its style is encrypted, with
    verification, to a ballot without any contest; a ballot that answers
    the two contests of its style is encrypted to a ballot of four
    contests, two of them synthesized. *)
Lemma encrypt_ballot_contest_count_witness :
  (exists eb,
     encrypt_ballot Reference.X Reference.ballot_empty Reference.election
       Reference.context 900 true = Returns (Some eb)
     /\ List.length (get_contests_for Reference.election
                       (pb_ballot_style Reference.ballot_empty)) = 1%nat
     /\ List.length (cb_contests eb) = 0%nat)
  /\ (exists eb,
        encrypt_ballot Reference.X Reference.ballot_two Reference.election_two
          Reference.context 900 true = Returns (Some eb)
        /\ List.length (get_contests_for Reference.election_two
                          (pb_ballot_style Reference.ballot_two)) = 2%nat
        /\ List.length (cb_contests eb) = 4%nat).
Proof.
  split.
  - eexists. split; [vm_compute; reflexivity|]. split; [reflexivity|].
    apply (encrypt_ballot_contest_count Reference.X Reference.ballot_empty
             Reference.election Reference.context 900 true).
    vm_compute. reflexivity.
  - eexists. split; [vm_compute; reflexivity|]. split; [reflexivity|].
    apply (encrypt_ballot_contest_count Reference.X Reference.ballot_two
             Reference.election_two Reference.context 900 true).
    vm_compute. reflexivity.
Defined.

(** ** The selections of an encrypted contest *)

Lemma real_plan_length contest descriptions :
  List.length (real_plan contest descriptions) = List.length descriptions.
Proof. apply length_map. Qed.

Lemma placeholder_plan_length X contest_description highest count :
  List.length (placeholder_plan X contest_description highest count)
  = Z.to_nat (cd_number_elected contest_description).
Proof.
  unfold placeholder_plan, range. rewrite !length_map. apply length_seq.
Qed.

Lemma contest_plan_length X contest contest_description :
  List.length (contest_plan X contest contest_description)
  = (List.length (cd_ballot_selections contest_description)
     + Z.to_nat (cd_number_elected contest_description))%nat.
Proof.
  unfold contest_plan.
  rewrite length_app, real_plan_length, placeholder_plan_length. reflexivity.
Qed.

(** C3.  For a contest whose selections are distinct objects with a
    plaintext representation of 0 or 1, at most [number_elected] of them
    true, and a description whose selections have distinct object ids: the
    pairs that [encrypt_contest] encrypts, real selections and placeholders
    together, hold exactly [number_elected] true plaintexts, and the
    selections of the returned contest are the encryptions of these pairs
    in order. *)
Theorem encrypt_contest_true_count X contest contest_description :
  (forall object_id is_affirmative is_placeholder,
     to_int X (mkPlaintextBallotSelection object_id
                 (PyText (str_of_bool is_affirmative)) is_placeholder)
     = if is_affirmative then 1 else 0) ->
  NoDup (map (fun s => py_addr (ps_object_id s)) (pc_ballot_selections contest)) ->
  NoDup (map (fun d => py_addr (sd_object_id d))
           (cd_ballot_selections contest_description)) ->
  (forall s, In s (pc_ballot_selections contest) ->
             to_int X s = 0 \/ to_int X s = 1) ->
  votes X (pc_ballot_selections contest) <= cd_number_elected contest_description ->
  Z.of_nat (true_count X (contest_plan X contest contest_description))
  = cd_number_elected contest_description
  /\ forall k seed verify ec,
       encrypt_contest X contest contest_description k seed verify
       = Returns (Some ec) ->
       cc_ballot_selections ec
       = map (fun p => encrypt_selection X (fst p) (snd p) k
                         (contest_nonce_of X contest_description seed) false true)
           (contest_plan X contest contest_description).
Proof.
  intros Htext Hs Hd H01 Hle. split.
  - apply contest_plan_true_count; assumption.
  - intros k seed verify ec Hec. apply encrypt_contest_returns in Hec. tauto.
Qed.

Lemma reference_to_int_text object_id is_affirmative is_placeholder :
  to_int Reference.X
    (mkPlaintextBallotSelection object_id
       (PyText (str_of_bool is_affirmative)) is_placeholder)
  = if is_affirmative then 1 else 0.
Proof. destruct is_affirmative; reflexivity. Defined.

(** The voter selects [A] in the two-candidate, one-seat contest: the
    contest is encrypted and verified, one plaintext of the three is true. *)
Lemma encrypt_contest_true_count_witness :
  Z.of_nat (true_count Reference.X
              (contest_plan Reference.X Reference.contest_A Reference.desc_contest))
  = 1
  /\ exists ec,
       encrypt_contest Reference.X Reference.contest_A Reference.desc_contest
         Reference.public_key 55 true = Returns (Some ec)
       /\ cc_ballot_selections ec
          = map (fun p => encrypt_selection Reference.X (fst p) (snd p)
                            Reference.public_key
                            (contest_nonce_of Reference.X Reference.desc_contest 55)
                            false true)
              (contest_plan Reference.X Reference.contest_A Reference.desc_contest).
Proof.
  destruct (encrypt_contest_true_count Reference.X Reference.contest_A
              Reference.desc_contest) as [Hcount Hrun].
  - exact reference_to_int_text.
  - cbn. constructor; [intros []|constructor].
  - cbn. constructor; [intros [H|[]]; discriminate H|].
    constructor; [intros []|constructor].
  - intros s [<-|[]]. right. reflexivity.
  - vm_compute. discriminate.
  - split; [exact Hcount|].
    eexists. split; [vm_compute; reflexivity|].
    apply (Hrun Reference.public_key 55 true). vm_compute. reflexivity.
Defined.

(** C6.  A contest returned by [encrypt_contest] has one selection per
    selection description followed by [number_elected] placeholders: its
    list of selections is the encryption of the real pairs followed by the
    encryption of the placeholder pairs, and has
    [len(ballot_selections) + number_elected] entries. *)
Theorem encrypt_contest_selection_count X contest contest_description k seed
  verify ec :
  0 <= cd_number_elected contest_description ->
  encrypt_contest X contest contest_description k seed verify
  = Returns (Some ec) ->
  Z.of_nat (List.length (cc_ballot_selections ec))
  = Z.of_nat (List.length (cd_ballot_selections contest_description))
    + cd_number_elected contest_description
  /\ exists real placeholders,
       cc_ballot_selections ec = real ++ placeholders
       /\ List.length real
          = List.length (cd_ballot_selections contest_description)
       /\ Z.of_nat (List.length placeholders)
          = cd_number_elected contest_description.
Proof.
  intros Hne Hec. apply encrypt_contest_returns in Hec.
  destruct Hec as [_ [Hsel _]]. rewrite Hsel. split.
  - rewrite length_map, contest_plan_length. lia.
  - unfold contest_plan. rewrite map_app. do 2 eexists.
    split; [reflexivity|].
    rewrite !length_map, real_plan_length, placeholder_plan_length.
    split; [reflexivity|lia].
Qed.

(** The end-to-end scenario: candidates [A] and [B], one seat, the voter
    selects [A].  The encrypted contest has three selections, [A], [B] and
    one placeholder, and one true plaintext among the three. *)
Lemma encrypt_contest_selection_count_witness :
  exists ec,
    encrypt_contest Reference.X Reference.contest_A Reference.desc_contest
      Reference.public_key 55 true = Returns (Some ec)
    /\ Z.of_nat (List.length (cc_ballot_selections ec)) = 2 + 1
    /\ map (option_map (fun s => py_chars (cs_object_id s)))
         (cc_ballot_selections ec)
       = [Some "A"; Some "B"; Some "contest-1-1"]%string
    /\ map (fun p => to_int Reference.X (fst p))
         (contest_plan Reference.X Reference.contest_A Reference.desc_contest)
       = [1; 0; 0].
Proof.
  eexists. split; [vm_compute; reflexivity|]. split; [|split].
  - apply (encrypt_contest_selection_count Reference.X Reference.contest_A
             Reference.desc_contest Reference.public_key 55 true).
    + vm_compute. discriminate.
    + vm_compute. reflexivity.
  - vm_compute. reflexivity.
  - vm_compute. reflexivity.
Defined.

(** ** Several selections for one description *)

(** C10.  In one pass of the first loop every selection of the voter that
    matches the description adds its plaintext value to [selection_count],
    and the encryption appended is that of the last matching selection only
    (of the synthesized false selection when there is none).  On a contest
    with a true and then a false selection for [A] the count is 1 while all
    three encrypted plaintexts are 0. *)
Theorem duplicate_matches_count_all_keep_last :
  (forall X (R : Type)
          (enc : PlaintextBallotSelection -> SelectionDescription -> R)
          contest es count highest var description,
     description_step X enc contest (es, count, highest, var) description
     = (es ++ [enc (last (matching description (pc_ballot_selections contest))
                      (selection_from description false false))
                 description],
        count + votes X (matching description (pc_ballot_selections contest)),
        (if sd_sequence_order description >? highest
         then sd_sequence_order description else highest),
        enc (last (matching description (pc_ballot_selections contest))
               (selection_from description false false))
          description))
  /\ matching Reference.desc_A (pc_ballot_selections Reference.contest_dup)
     = [Reference.vote_A; Reference.vote_A_false]
  /\ contest_loops Reference.X (fun s _ => to_int Reference.X s) 0
       Reference.contest_dup Reference.desc_contest
     = ([0; 0; 0], 1).
Proof.
  split; [|split].
  - intros. apply description_step_spec.
  - reflexivity.
  - vm_compute. reflexivity.
Qed.

(** ** Matching by identity *)

Lemma matching_none description selections :
  (forall s, In s selections ->
             py_is (ps_object_id s) (sd_object_id description) = false) ->
  matching description selections = [].
Proof.
  induction selections as [|s rest IH]; intros H; [reflexivity|].
  rewrite matching_cons. unfold matches.
  rewrite (H s (or_introl eq_refl)). apply IH.
  intros s' Hs'. apply H. right. exact Hs'.
Qed.

Lemma real_plan_no_match (X : Collaborators) contest descriptions :
  (forall s d, In s (pc_ballot_selections contest) -> In d descriptions ->
               py_is (ps_object_id s) (sd_object_id d) = false) ->
  real_plan contest descriptions
  = real_plan (mkPlaintextBallotContest (pc_object_id contest) []) descriptions
  /\ real_count X contest descriptions
     = real_count X (mkPlaintextBallotContest (pc_object_id contest) [])
         descriptions.
Proof.
  induction descriptions as [|d ds IH]; intros H; [split; reflexivity|].
  destruct IH as [IHp IHc].
  { intros s d' Hs Hd'. apply H; [exact Hs|right; exact Hd']. }
  assert (matching d (pc_ballot_selections contest) = []) as Hm.
  { apply matching_none. intros s Hs. apply H; [exact Hs|left; reflexivity]. }
  split.
  - unfold real_plan in *. cbn [map]. rewrite IHp. unfold chosen_selection.
    rewrite Hm. reflexivity.
  - rewrite !real_count_step, IHc, Hm. reflexivity.
Qed.

Lemma contest_loop_no_match {R : Type}
  (enc : PlaintextBallotContest -> ContestDescription -> outcome R)
  description contests acc :
  (forall c, In c contests ->
             py_is (pc_object_id c) (cd_object_id description) = false) ->
  contest_loop enc description contests acc
  = contest_loop (fun _ d => enc (contest_from d) d) description contests acc.
Proof.
  revert acc. induction contests as [|c rest IH]; intros acc H; [reflexivity|].
  cbn [contest_loop]. rewrite (H c (or_introl eq_refl)).
  destruct (enc (contest_from description) description); cbn [obind].
  - destruct (py_is (pc_object_id c) (cd_object_id description));
      apply IH; intros c' Hc'; apply H; right; exact Hc'.
  - destruct (py_is (pc_object_id c) (cd_object_id description)); reflexivity.
Qed.

(** C4 (the code departs from the claim).  The two loops compare object ids
    with [is].  When no selection of the voter is the same string object as
    the object id of a description, [encrypt_contest] encrypts what it
    encrypts for a contest without any selection, whatever the characters
    of the ids; when no contest of the ballot is the same string object as
    the object id of a contest description, [encrypt_ballot] encrypts
    [contest_from(description)] at every turn. *)
Theorem identity_decides_the_match :
  (forall X (R : Type)
          (enc : PlaintextBallotSelection -> SelectionDescription -> R)
          unbound contest contest_description,
     (forall s d, In s (pc_ballot_selections contest) ->
                  In d (cd_ballot_selections contest_description) ->
                  py_is (ps_object_id s) (sd_object_id d) = false) ->
     fst (contest_loops X enc unbound contest contest_description)
     = fst (contest_loops X enc unbound
              (mkPlaintextBallotContest (pc_object_id contest) [])
              contest_description))
  /\ (forall (R : Type)
             (enc : PlaintextBallotContest -> ContestDescription -> outcome R)
             descriptions contests acc,
        (forall c d, In c contests -> In d descriptions ->
                     py_is (pc_object_id c) (cd_object_id d) = false) ->
        description_loop enc descriptions contests acc
        = description_loop (fun _ d => enc (contest_from d) d)
            descriptions contests acc).
Proof.
  split.
  - intros X R enc unbound contest contest_description H.
    rewrite !contest_loops_spec. unfold contest_plan.
    destruct (real_plan_no_match X contest
                (cd_ballot_selections contest_description) H) as [-> ->].
    reflexivity.
  - intros R enc descriptions contests. 
    induction descriptions as [|d ds IH]; intros acc H; [reflexivity|].
    cbn [description_loop].
    rewrite contest_loop_no_match
      by (intros c Hc; apply H; [exact Hc|left; reflexivity]).
    destruct (contest_loop _ d contests acc); cbn [obind]; [|reflexivity].
    apply IH. intros c d' Hc Hd'. apply H; [exact Hc|right; exact Hd'].
Qed.

(** The voter's selection for ["candidate-alice"] and the voter's contest
    ["race-1"] are held in string objects of their own: the ids are equal to
    the descriptions', and yet the false selection and the synthesized
    contest are what is encrypted. *)
Lemma identity_decides_the_match_witness :
  (existsb (fun s => py_eq (ps_object_id s) (sd_object_id Reference.desc_alice))
     (pc_ballot_selections Reference.contest_alice_read) = true
   /\ fst (contest_loops Reference.X (fun s _ => ps_vote s) (PyInt 0)
             Reference.contest_alice_read Reference.desc_race)
      = [PyText "False"; PyText "False"; PyText "True"])
  /\ (existsb (fun c => py_eq (pc_object_id c) (cd_object_id Reference.desc_race))
        (pb_contests Reference.ballot_read) = true
      /\ description_loop (fun c _ => Returns (map ps_vote (pc_ballot_selections c)))
           [Reference.desc_race] (pb_contests Reference.ballot_read) []
         = Returns [[PyText "False"; PyText "False"]]).
Proof.
  destruct identity_decides_the_match as [Hselections Hcontests].
  split; (split; [reflexivity|]).
  - rewrite Hselections; [reflexivity|].
    intros s d [<-|[]] [<-|[<-|[]]]; reflexivity.
  - rewrite Hcontests; [reflexivity|].
    intros c d [<-|[]] [<-|[]]. reflexivity.
Defined.

(** ** The vote of a synthesized selection *)

Lemma fold_left_append {A B : Type} (f : A -> B) (l : list A) (acc : list B) :
  fold_left (fun acc x => acc ++ [f x]) l acc = acc ++ map f l.
Proof.
  revert acc. induction l as [|a l IH]; intros acc; cbn.
  - rewrite app_nil_r. reflexivity.
  - rewrite IH, <- app_assoc. reflexivity.
Qed.

Lemma contest_from_selections description :
  pc_ballot_selections (contest_from description)
  = map (fun d => selection_from d false false) (cd_ballot_selections description).
Proof.
  unfold contest_from. cbn [pc_ballot_selections].
  rewrite (fold_left_append (fun d => selection_from d false false)).
  reflexivity.
Qed.

(** C5 as stated fails: the vote of the selection synthesized for ["A"] is
    neither the integer 0 nor the integer 1. *)
Lemma selection_from_vote_counterexample :
  ~ (forall description is_placeholder is_affirmative,
       ps_vote (selection_from description is_placeholder is_affirmative) = PyInt 0
       \/ ps_vote (selection_from description is_placeholder is_affirmative)
          = PyInt 1).
Proof.
  intros H. destruct (H Reference.desc_A false false) as [E|E]; discriminate E.
Qed.

(** C5, amended.  The vote of a selection built by [selection_from] is the
    text [str(is_affirmative)], ["True"] or ["False"]; every selection of
    [contest_from] carries ["False"], every placeholder selection ["True"]
    or ["False"]. *)
Theorem selection_from_vote_is_text X description is_placeholder is_affirmative
  contest_description highest count :
  ps_vote (selection_from description is_placeholder is_affirmative)
  = PyText (if is_affirmative then "True" else "False")
  /\ Forall (fun s => ps_vote s = PyText "False")
       (pc_ballot_selections (contest_from contest_description))
  /\ Forall (fun p => ps_vote (fst p) = PyText "True"
                      \/ ps_vote (fst p) = PyText "False")
       (placeholder_plan X contest_description highest count).
Proof.
  split; [|split].
  - destruct is_affirmative; reflexivity.
  - rewrite contest_from_selections. apply Forall_forall.
    intros s Hs. apply in_map_iff in Hs. destruct Hs as [d [<- _]].
    reflexivity.
  - apply Forall_forall. intros p Hp. unfold placeholder_plan in Hp.
    apply in_map_iff in Hp. destruct Hp as [i [<- _]].
    unfold placeholder_entry. cbn [fst selection_from ps_vote].
    destruct (count + i <? cd_number_elected contest_description); auto.
Qed.

(** ** The nonce and the proof of a selection *)




Lemma encrypt_selection_nonce X selection selection_description k seed
  is_placeholder verify es :
  encrypt_selection X selection selection_description k seed is_placeholder verify
  = Some es ->
  cs_nonce es
  = Some (Nonces_getitem X
            (mkNonces (selection_crypto_hash X selection_description) seed)
            (sd_sequence_order selection_description)).
Proof.
  unfold encrypt_selection.
  destruct (selection_is_valid X selection _); cbn [negb]; [|discriminate].
  destruct verify; cbn [negb].
  - destruct (selection_is_valid_encryption X _ _ _); [|discriminate].
    intros [= <-]. reflexivity.
  - intros [= <-]. reflexivity.
Qed.

(** ** The placeholder descriptions *)





Lemma highest_from_bounds h descriptions :
  h <= highest_from h descriptions
  /\ Forall (fun d => sd_sequence_order d <= highest_from h descriptions)
       descriptions
  /\ (highest_from h descriptions = h
      \/ Exists (fun d => sd_sequence_order d = highest_from h descriptions)
           descriptions).
Proof.
  revert h. induction descriptions as [|d ds IH]; intros h.
  - cbn. auto using Z.le_refl.
  - cbn [highest_from fold_left].
    fold (highest_from (if sd_sequence_order d >? h then sd_sequence_order d else h) ds).
    destruct (IH (if sd_sequence_order d >? h then sd_sequence_order d else h))
      as [Hle [Hall Hex]].
    destruct (sd_sequence_order d >? h) eqn:E.
    + apply Z.gtb_lt in E. split; [lia|]. split.
      * constructor; [lia|exact Hall].
      * right. destruct Hex as [Heq|Hex].
        -- left. symmetry. exact Heq.
        -- right. exact Hex.
    + assert (sd_sequence_order d <= h) by (rewrite Z.gtb_ltb in E; apply Z.ltb_ge in E; lia).
      split; [lia|]. split.
      * constructor; [lia|exact Hall].
      * destruct Hex as [Heq|Hex]; [left; exact Heq|right; right; exact Hex].
Qed.


(** The element of index 0 is the seed of the proof whatever the selection:
    for a description of sequence order 0 it is also the ElGamal nonce. *)
Remark proof_seed_is_the_nonce_at_order_zero X (nonce_sequence : Nonces)
  selection_description :
  sd_sequence_order selection_description = 0 ->
  Nonces_first X nonce_sequence
  = Nonces_getitem X nonce_sequence (sd_sequence_order selection_description).
Proof. intros ->. reflexivity. Qed.

(** * Further properties of the compositor *)

(** ** What the loops hand to [encrypt_selection] *)

(** The descriptions of the plan do not depend on the voter's contest. *)
Lemma contest_plan_descriptions X contest contest_description :
  map snd (contest_plan X contest contest_description)
  = cd_ballot_selections contest_description
    ++ map (fun i =>
              placeholder_selection_description_from X contest_description
                (highest_from 0 (cd_ballot_selections contest_description) + i))
         (range (cd_number_elected contest_description)).
Proof.
  unfold contest_plan. rewrite map_app. f_equal.
  - unfold real_plan. rewrite map_map. cbn [snd]. apply map_id.
  - unfold placeholder_plan. rewrite map_map. reflexivity.
Qed.

Lemma py_is_refl a : py_is a a = true.
Proof. unfold py_is. apply N.eqb_refl. Qed.

Lemma chosen_selection_matches description selections :
  py_is (ps_object_id (chosen_selection description selections))
    (sd_object_id description) = true.
Proof.
  unfold chosen_selection.
  destruct (matching description selections) as [|s l] eqn:E.
  - cbn. apply py_is_refl.
  - assert (In (last (s :: l) (selection_from description false false))
              (matching description selections)) as Hin.
    { rewrite E. destruct (exists_last (l := s :: l)) as [l' [a Ha]];
        [discriminate|].
      rewrite Ha, last_last. apply in_or_app. right. left. reflexivity. }
    apply filter_In in Hin. destruct Hin as [_ Hm]. exact Hm.
Qed.

(** Every pair of the plan joins a selection and a description whose
    object ids are one string object. *)
Lemma contest_plan_matches X contest contest_description :
  Forall (fun p => py_is (ps_object_id (fst p)) (sd_object_id (snd p)) = true)
    (contest_plan X contest contest_description).
Proof.
  unfold contest_plan. apply Forall_app. split; apply Forall_forall; intros p Hp.
  - unfold real_plan in Hp. apply in_map_iff in Hp. destruct Hp as [d [<- _]].
    cbn [fst snd]. apply chosen_selection_matches.
  - unfold placeholder_plan in Hp. apply in_map_iff in Hp.
    destruct Hp as [i [<- _]]. unfold placeholder_entry. cbn [fst snd].
    apply py_is_refl.
Qed.

(** What a returned selection is. *)
Lemma encrypt_selection_some X selection selection_description k seed
  is_placeholder verify es :
  encrypt_selection X selection selection_description k seed is_placeholder verify
  = Some es ->
  selection_is_valid X selection (sd_object_id selection_description) = true
  /\ cs_object_id es = ps_object_id selection
  /\ cs_description_hash es = selection_crypto_hash X selection_description
  /\ cs_is_placeholder es = is_placeholder
  /\ (verify = true ->
      selection_is_valid_encryption X es
        (selection_crypto_hash X selection_description) k = true).
Proof.
  unfold encrypt_selection.
  destruct (selection_is_valid X selection _); cbn [negb]; [|discriminate].
  destruct verify; cbn [negb].
  - destruct (selection_is_valid_encryption X _ _ _) eqn:E; [|discriminate].
    intros [= <-]. cbn. auto.
  - intros [= <-]. cbn. repeat split; discriminate.
Qed.

(** A contest returned after verification has passed it. *)
Lemma encrypt_contest_verified X contest contest_description k seed ec :
  encrypt_contest X contest contest_description k seed true = Returns (Some ec) ->
  contest_is_valid_encryption X ec
    (contest_crypto_hash X contest_description) k = Returns true.
Proof.
  unfold encrypt_contest.
  destruct (contest_is_valid X contest _ _ _ _); cbn [negb]; [|discriminate].
  destruct (contest_loops X _ None contest contest_description) as [es count].
  destruct (elgamal_accumulate X _) as [acc|]; cbn [obind]; [|discriminate].
  destruct (aggregate_nonce X _) as [agg|]; cbn [obind]; [|discriminate].
  destruct (make_constant_chaum_pedersen X _ _ _ _ _) as [proof|];
    cbn [obind negb]; [|discriminate].
  destruct (contest_is_valid_encryption X _ _ _) as [[|]|] eqn:E; cbn [obind];
    try discriminate.
  intros [= <-]. exact E.
Qed.

(** ** The flag of the placeholders *)

(** X1.  [encrypt_contest] calls [encrypt_selection] without
    [is_placeholder]: every selection of a returned contest, the
    placeholders included, has its [is_placeholder] field false, while the
    plaintext selections built for the placeholders are marked as
    placeholders. *)
Theorem encrypted_placeholders_are_not_flagged X contest contest_description k
  seed verify ec :
  encrypt_contest X contest contest_description k seed verify
  = Returns (Some ec) ->
  Forall (fun encrypted =>
            forall es, encrypted = Some es -> cs_is_placeholder es = false)
    (cc_ballot_selections ec)
  /\ Forall (fun p => ps_is_placeholder (fst p) = true)
       (skipn (List.length (cd_ballot_selections contest_description))
          (contest_plan X contest contest_description)).
Proof.
  intros Hec. apply encrypt_contest_returns in Hec.
  destruct Hec as [_ [-> _]]. split.
  - apply Forall_forall. intros e He es ->.
    apply in_map_iff in He. destruct He as [p [Hp _]].
    apply encrypt_selection_some in Hp. tauto.
  - unfold contest_plan.
    rewrite <- (real_plan_length contest (cd_ballot_selections contest_description)).
    rewrite skipn_app, Nat.sub_diag, skipn_all. cbn [app skipn].
    apply Forall_forall. intros p Hp. unfold placeholder_plan in Hp.
    apply in_map_iff in Hp. destruct Hp as [i [<- _]]. reflexivity.
Qed.

(** On the contest of the scenario the third selection is the placeholder
    and its flag is false. *)
Lemma encrypted_placeholders_are_not_flagged_witness :
  exists ec,
    encrypt_contest Reference.X Reference.contest_A Reference.desc_contest
      Reference.public_key 55 true = Returns (Some ec)
    /\ map (option_map cs_is_placeholder) (cc_ballot_selections ec)
       = [Some false; Some false; Some false]
    /\ Forall (fun encrypted =>
                 forall es, encrypted = Some es -> cs_is_placeholder es = false)
         (cc_ballot_selections ec).
Proof.
  eexists. split; [vm_compute; reflexivity|]. split; [vm_compute; reflexivity|].
  apply (encrypted_placeholders_are_not_flagged Reference.X Reference.contest_A
           Reference.desc_contest Reference.public_key 55 true).
  vm_compute. reflexivity.
Defined.

(** ** Each encrypted selection and its description *)

Lemma Forall2_map_plan {A B C : Type} (f : A -> B) (g : A -> C)
  (R : C -> B -> Prop) (l : list A) :
  (forall a, In a l -> R (g a) (f a)) ->
  Forall2 R (map g l) (map f l).
Proof.
  induction l as [|a l IH]; intros H; cbn; constructor.
  - apply H. left. reflexivity.
  - apply IH. intros b Hb. apply H. right. exact Hb.
Qed.

(** X2.  The selections of a returned contest follow the descriptions, the
    real ones and then the placeholders of sequence order
    [highest_sequence_order + i]: the selection at each place carries the
    description hash of the description at that place, and its object id is
    the very string object of that description's object id. *)
Theorem encrypted_selections_follow_descriptions X contest contest_description
  k seed verify ec :
  encrypt_contest X contest contest_description k seed verify
  = Returns (Some ec) ->
  Forall2
    (fun description encrypted =>
       forall es, encrypted = Some es ->
         py_is (cs_object_id es) (sd_object_id description) = true
         /\ cs_description_hash es = selection_crypto_hash X description)
    (cd_ballot_selections contest_description
     ++ map (fun i =>
               placeholder_selection_description_from X contest_description
                 (highest_from 0 (cd_ballot_selections contest_description) + i))
          (range (cd_number_elected contest_description)))
    (cc_ballot_selections ec).
Proof.
  intros Hec. apply encrypt_contest_returns in Hec.
  destruct Hec as [_ [-> _]].
  rewrite <- (contest_plan_descriptions X contest contest_description).
  apply Forall2_map_plan. intros p Hp es Hes.
  apply encrypt_selection_some in Hes. destruct Hes as [_ [-> [-> _]]].
  split; [|reflexivity].
  pose proof (contest_plan_matches X contest contest_description) as Hm.
  rewrite Forall_forall in Hm. apply Hm. exact Hp.
Qed.

(** The contest of the scenario: ids ["A"], ["B"] and the placeholder id. *)
Lemma encrypted_selections_follow_descriptions_witness :
  exists ec,
    encrypt_contest Reference.X Reference.contest_A Reference.desc_contest
      Reference.public_key 55 true = Returns (Some ec)
    /\ Forall2
         (fun description encrypted =>
            forall es, encrypted = Some es ->
              py_is (cs_object_id es) (sd_object_id description) = true
              /\ cs_description_hash es
                 = selection_crypto_hash Reference.X description)
         [Reference.desc_A; Reference.desc_B;
          placeholder_selection_description_from Reference.X
            Reference.desc_contest 1]
         (cc_ballot_selections ec).
Proof.
  eexists. split; [vm_compute; reflexivity|].
  apply (encrypted_selections_follow_descriptions Reference.X
           Reference.contest_A Reference.desc_contest Reference.public_key
           55 true).
  vm_compute. reflexivity.
Defined.

(** ** More true selections than seats *)

Section Overvote.
Variable X : Collaborators.

Hypothesis to_int_text :
  forall object_id is_affirmative is_placeholder,
    to_int X (mkPlaintextBallotSelection object_id
                (PyText (str_of_bool is_affirmative)) is_placeholder)
    = if is_affirmative then 1 else 0.

Lemma placeholder_plan_true_count_any contest_description highest count :
  0 <= count ->
  Z.of_nat (true_count X (placeholder_plan X contest_description highest count))
  = Z.max 0 (cd_number_elected contest_description - count).
Proof.
  intros Hc. unfold true_count, placeholder_plan, range.
  assert (forall l,
    filter (fun p => to_int X (fst p) =? 1)
      (map (placeholder_entry X contest_description highest count) l)
    = map (placeholder_entry X contest_description highest count)
        (filter (fun i => count + i <? cd_number_elected contest_description) l))
    as Hfilter.
  { induction l as [|i l IHl]; [reflexivity|].
    cbn [map filter]. rewrite IHl.
    unfold placeholder_entry at 1. cbn [fst]. unfold selection_from.
    rewrite to_int_text.
    destruct (count + i <? cd_number_elected contest_description); reflexivity. }
  rewrite Hfilter, length_map.
  rewrite (placeholder_filter_length count) by exact Hc. lia.
Qed.

Lemma votes_matching_nonneg description selections :
  (forall s, In s selections -> to_int X s = 0 \/ to_int X s = 1) ->
  0 <= votes X (matching description selections).
Proof.
  intros H. apply votes_nonneg. intros s Hs.
  apply filter_In in Hs. apply H. tauto.
Qed.

Lemma real_count_nonneg contest descriptions :
  (forall s, In s (pc_ballot_selections contest) ->
             to_int X s = 0 \/ to_int X s = 1) ->
  0 <= real_count X contest descriptions.
Proof.
  intros H. induction descriptions as [|d ds IH]; [cbn; lia|].
  rewrite real_count_step.
  pose proof (votes_matching_nonneg d (pc_ballot_selections contest) H). lia.
Qed.

Lemma contest_plan_true_count_any contest contest_description :
  NoDup (map (fun s => py_addr (ps_object_id s)) (pc_ballot_selections contest)) ->
  (forall s, In s (pc_ballot_selections contest) ->
             to_int X s = 0 \/ to_int X s = 1) ->
  Z.of_nat (true_count X (contest_plan X contest contest_description))
  = Z.max (cd_number_elected contest_description)
      (real_count X contest (cd_ballot_selections contest_description)).
Proof.
  intros Hs H01. unfold contest_plan.
  rewrite true_count_app, Nat2Z.inj_add.
  pose proof (real_count_nonneg contest
                (cd_ballot_selections contest_description) H01) as Hb.
  rewrite (real_plan_true_count X to_int_text) by assumption.
  rewrite placeholder_plan_true_count_any by lia. lia.
Qed.
End Overvote.

(** X3.  For a contest whose selections are distinct objects with a
    plaintext representation of 0 or 1, the pairs that [encrypt_contest]
    encrypts hold as many true plaintexts as the larger of [number_elected]
    and the [selection_count] reached by the first loop: the placeholders
    fill the seats left and never take a true selection back, so a contest
    with at least as many true selections as seats is encrypted with all of
    them true and every placeholder false. *)
Theorem encrypt_contest_true_count_overvote X contest contest_description :
  (forall object_id is_affirmative is_placeholder,
     to_int X (mkPlaintextBallotSelection object_id
                 (PyText (str_of_bool is_affirmative)) is_placeholder)
     = if is_affirmative then 1 else 0) ->
  NoDup (map (fun s => py_addr (ps_object_id s)) (pc_ballot_selections contest)) ->
  (forall s, In s (pc_ballot_selections contest) ->
             to_int X s = 0 \/ to_int X s = 1) ->
  let selection_count :=
    real_count X contest (cd_ballot_selections contest_description) in
  (exists es highest var,
     fold_left (description_step X (fun s _ => to_int X s) contest)
       (cd_ballot_selections contest_description) ([], 0, 0, 0)
     = (es, selection_count, highest, var))
  /\ Z.of_nat (true_count X (contest_plan X contest contest_description))
     = Z.max (cd_number_elected contest_description) selection_count
  /\ (cd_number_elected contest_description <= selection_count ->
      Forall (fun p => to_int X (fst p) = 0)
        (skipn (List.length (cd_ballot_selections contest_description))
           (contest_plan X contest contest_description)))
  /\ forall k seed verify ec,
       encrypt_contest X contest contest_description k seed verify
       = Returns (Some ec) ->
       cc_ballot_selections ec
       = map (fun p => encrypt_selection X (fst p) (snd p) k
                         (contest_nonce_of X contest_description seed) false true)
           (contest_plan X contest contest_description).
Proof.
  intros Htext Hs H01 selection_count. split; [|split; [|split]].
  - destruct (description_fold_spec X (fun s _ => to_int X s) contest
                (cd_ballot_selections contest_description) [] 0 0 0)
      as [var' E].
    rewrite E. do 3 eexists. reflexivity.
  - apply contest_plan_true_count_any; assumption.
  - intros Hover. unfold contest_plan.
    rewrite <- (real_plan_length contest (cd_ballot_selections contest_description)).
    rewrite skipn_app, Nat.sub_diag, skipn_all. cbn [app skipn].
    apply Forall_forall. intros p Hp. unfold placeholder_plan in Hp.
    apply in_map_iff in Hp. destruct Hp as [i [<- Hi]].
    unfold range in Hi. apply in_map_iff in Hi. destruct Hi as [n [<- _]].
    unfold placeholder_entry. cbn [fst]. unfold selection_from.
    rewrite Htext.
    fold selection_count.
    replace (selection_count + Z.of_nat n
             <? cd_number_elected contest_description) with false
      by (symmetry; apply Z.ltb_ge; lia).
    reflexivity.
  - intros k seed verify ec Hec. apply encrypt_contest_returns in Hec. tauto.
Qed.

(** Both candidates selected: in the two-seat contest the encryption is
    returned with two false placeholders; in the one-seat contest the loops
    keep the two true selections beside a false placeholder. *)
Lemma encrypt_contest_true_count_overvote_witness :
  (exists ec,
     encrypt_contest Reference.X Reference.contest_over Reference.desc_two_seats
       Reference.public_key 55 true = Returns (Some ec)
     /\ Forall (fun p => to_int Reference.X (fst p) = 0)
          (skipn 2 (contest_plan Reference.X Reference.contest_over
                      Reference.desc_two_seats))
     /\ map (fun p => to_int Reference.X (fst p))
          (contest_plan Reference.X Reference.contest_over
             Reference.desc_two_seats)
        = [1; 1; 0; 0])
  /\ Z.of_nat (true_count Reference.X
                 (contest_plan Reference.X Reference.contest_over
                    Reference.desc_contest)) = 2.
Proof.
  assert (NoDup (map (fun s => py_addr (ps_object_id s))
                   (pc_ballot_selections Reference.contest_over))) as Hnd.
  { cbn. constructor; [intros [H|[]]; discriminate H|].
    constructor; [intros []|constructor]. }
  assert (forall s, In s (pc_ballot_selections Reference.contest_over) ->
                    to_int Reference.X s = 0 \/ to_int Reference.X s = 1) as H01.
  { intros s [<-|[<-|[]]]; right; reflexivity. }
  split.
  - destruct (encrypt_contest_true_count_overvote Reference.X
                Reference.contest_over Reference.desc_two_seats
                reference_to_int_text Hnd H01) as [_ [_ [Hover _]]].
    eexists. split; [vm_compute; reflexivity|].
    split; [|vm_compute; reflexivity].
    apply Hover. vm_compute. discriminate.
  - destruct (encrypt_contest_true_count_overvote Reference.X
                Reference.contest_over Reference.desc_contest
                reference_to_int_text Hnd H01) as [_ [Hcount _]].
    rewrite Hcount. vm_compute. reflexivity.
Defined.

(** ** The selections the loops look at *)

(** The loops see the voter's contest through the selections that match
    each description. *)
Lemma contest_loops_ext X {R : Type}
  (enc : PlaintextBallotSelection -> SelectionDescription -> R)
  unbound contest contest' contest_description :
  (forall d, In d (cd_ballot_selections contest_description) ->
             matching d (pc_ballot_selections contest)
             = matching d (pc_ballot_selections contest')) ->
  contest_loops X enc unbound contest contest_description
  = contest_loops X enc unbound contest' contest_description.
Proof.
  intros H. unfold contest_loops.
  assert (forall st,
    fold_left (description_step X enc contest)
      (cd_ballot_selections contest_description) st
    = fold_left (description_step X enc contest')
        (cd_ballot_selections contest_description) st) as ->; [|reflexivity].
  induction (cd_ballot_selections contest_description) as [|d ds IH];
    intros st; [reflexivity|].
  cbn [fold_left]. destruct st as [[[es count] h] var].
  rewrite !description_step_spec. unfold chosen_selection.
  rewrite (H d (or_introl eq_refl)).
  apply IH. intros d' Hd'. apply H. right. exact Hd'.
Qed.

Lemma matching_filter description (keep : PlaintextBallotSelection -> bool)
  selections :
  (forall s, matches description s = true -> keep s = true) ->
  matching description (filter keep selections) = matching description selections.
Proof.
  intros H. induction selections as [|s rest IH]; [reflexivity|].
  cbn [filter]. destruct (keep s) eqn:Ek.
  - rewrite !matching_cons, IH. reflexivity.
  - rewrite matching_cons, IH.
    destruct (matches description s) eqn:Em; [|reflexivity].
    rewrite (H s Em) in Ek. discriminate Ek.
Qed.

(** X4.  A selection of the voter whose object id is not the string object
    of any description's object id leaves no trace in the two loops of
    [encrypt_contest]: the list of encrypted selections and the final
    [selection_count] are those of the contest without it. *)
Theorem unmatched_selections_are_dropped X (R : Type)
  (enc : PlaintextBallotSelection -> SelectionDescription -> R)
  unbound contest contest_description :
  contest_loops X enc unbound contest contest_description
  = contest_loops X enc unbound
      (mkPlaintextBallotContest (pc_object_id contest)
         (filter
            (fun s =>
               existsb (fun d => py_is (ps_object_id s) (sd_object_id d))
                 (cd_ballot_selections contest_description))
            (pc_ballot_selections contest)))
      contest_description.
Proof.
  apply contest_loops_ext. intros d Hd. cbn [pc_ballot_selections].
  symmetry. apply matching_filter. intros s Hs.
  apply existsb_exists. exists d. split; [exact Hd|exact Hs].
Qed.

Lemma Permutation_filter_same {A : Type} (p : A -> bool) (l l' : list A) :
  Permutation l l' -> Permutation (filter p l) (filter p l').
Proof.
  induction 1 as [|x l l' _ IH|x y l|l l' l'' _ IH1 _ IH2]; cbn.
  - constructor.
  - destruct (p x); [constructor|]; exact IH.
  - destruct (p x), (p y); try apply Permutation_refl. constructor.
  - eapply Permutation_trans; eassumption.
Qed.

Lemma matching_permutation description selections selections' :
  Permutation selections selections' ->
  NoDup (map (fun s => py_addr (ps_object_id s)) selections) ->
  matching description selections = matching description selections'.
Proof.
  intros Hperm Hnd.
  pose proof (Permutation_filter_same (matches description) _ _ Hperm) as Hp.
  fold (matching description selections) in Hp.
  fold (matching description selections') in Hp.
  assert (List.length (matching description selections) <= 1)%nat as Hlen.
  { apply (filter_key_unique (fun s => py_addr (ps_object_id s))
             (matches description) (py_addr (sd_object_id description)) _ Hnd).
    intros s Hs. unfold matches, py_is in Hs. apply N.eqb_eq in Hs. exact Hs. }
  destruct (matching description selections) as [|s [|s' l]].
  - apply Permutation_nil in Hp. symmetry. exact Hp.
  - apply Permutation_length_1_inv in Hp. symmetry. exact Hp.
  - cbn in Hlen. lia.
Qed.

(** X5.  When the selections of the voter's contest are distinct objects,
    their order is of no account: the two loops of [encrypt_contest] give
    the same list, in the order of the descriptions, and the same
    [selection_count] for any rearrangement of the voter's selections. *)
Theorem voter_order_is_irrelevant X (R : Type)
  (enc : PlaintextBallotSelection -> SelectionDescription -> R)
  unbound object_id selections selections' contest_description :
  Permutation selections selections' ->
  NoDup (map (fun s => py_addr (ps_object_id s)) selections) ->
  contest_loops X enc unbound
    (mkPlaintextBallotContest object_id selections) contest_description
  = contest_loops X enc unbound
      (mkPlaintextBallotContest object_id selections') contest_description.
Proof.
  intros Hperm Hnd. apply contest_loops_ext. intros d _.
  cbn [pc_ballot_selections]. apply matching_permutation; assumption.
Qed.

(** [B] then [A], or [A] then [B], in the two-seat contest. *)
Lemma voter_order_is_irrelevant_witness :
  contest_loops Reference.X (fun s _ => to_int Reference.X s) 0
    (mkPlaintextBallotContest Reference.id_contest
       [Reference.vote_B; Reference.vote_A])
    Reference.desc_two_seats
  = contest_loops Reference.X (fun s _ => to_int Reference.X s) 0
      (mkPlaintextBallotContest Reference.id_contest
         [Reference.vote_A; Reference.vote_B])
      Reference.desc_two_seats
  /\ contest_loops Reference.X (fun s _ => to_int Reference.X s) 0
       (mkPlaintextBallotContest Reference.id_contest
          [Reference.vote_B; Reference.vote_A])
       Reference.desc_two_seats
     = ([1; 1; 0; 0], 2).
Proof.
  split; [|vm_compute; reflexivity].
  apply voter_order_is_irrelevant.
  - apply perm_swap.
  - cbn. constructor; [intros [H|[]]; discriminate H|].
    constructor; [intros []|constructor].
Defined.

(** ** The synthesized contest *)

Lemma last_Forall {A : Type} (P : A -> Prop) (l : list A) (d : A) :
  Forall P l -> P d -> P (last l d).
Proof.
  intros Hl Hd. induction Hl as [|a l Ha Hl IH]; [exact Hd|].
  destruct l as [|b l]; [exact Ha|]. exact IH.
Qed.

Lemma map_all_equal {A B : Type} (f : A -> B) (b : B) (l : list A) :
  (forall a, In a l -> f a = b) -> map f l = repeat b (List.length l).
Proof.
  induction l as [|a l IH]; intros H; [reflexivity|].
  cbn. rewrite (H a (or_introl eq_refl)), IH; [reflexivity|].
  intros a' Ha'. apply H. right. exact Ha'.
Qed.

Lemma votes_all_zero X selections :
  Forall (fun s => to_int X s = 0) selections -> votes X selections = 0.
Proof.
  induction 1 as [|s l Hs _ IH]; [reflexivity|].
  cbn [votes fold_right]. fold (votes X l). lia.
Qed.

(** X6.  [encrypt_contest] on the contest that [contest_from] builds for
    its description encrypts a false plaintext for every selection
    description and a true plaintext for each of the [number_elected]
    placeholders, whenever the integer representation reads the text of
    [selection_from]. *)
Theorem synthesized_contest_plaintexts X unbound contest_description :
  (forall object_id is_affirmative is_placeholder,
     to_int X (mkPlaintextBallotSelection object_id
                 (PyText (str_of_bool is_affirmative)) is_placeholder)
     = if is_affirmative then 1 else 0) ->
  fst (contest_loops X (fun s _ => to_int X s) unbound
         (contest_from contest_description) contest_description)
  = repeat 0 (List.length (cd_ballot_selections contest_description))
    ++ repeat 1 (Z.to_nat (cd_number_elected contest_description)).
Proof.
  intros Htext. rewrite contest_loops_spec. unfold contest_plan.
  assert (Forall (fun s => to_int X s = 0)
            (pc_ballot_selections (contest_from contest_description))) as Hzero.
  { rewrite contest_from_selections. apply Forall_forall. intros s Hs.
    apply in_map_iff in Hs. destruct Hs as [d [<- _]].
    unfold selection_from. apply (Htext _ false). }
  assert (forall d, Forall (fun s => to_int X s = 0)
                      (matching d (pc_ballot_selections
                                     (contest_from contest_description))))
    as Hmatching.
  { intros d. apply Forall_forall. intros s Hs. apply filter_In in Hs.
    rewrite Forall_forall in Hzero. apply Hzero. tauto. }
  assert (forall ds,
            real_count X (contest_from contest_description) ds = 0) as Hcount.
  { induction ds as [|d ds IH]; [reflexivity|].
    rewrite real_count_step, IH, (votes_all_zero X _ (Hmatching d)).
    reflexivity. }
  rewrite Hcount, map_app. f_equal.
  - unfold real_plan. rewrite map_map. cbn [fst snd].
    apply map_all_equal. intros d _. unfold chosen_selection.
    apply last_Forall; [apply Hmatching|].
    unfold selection_from. apply (Htext _ false).
  - unfold placeholder_plan, range. rewrite !map_map.
    replace (repeat 1 (Z.to_nat (cd_number_elected contest_description)))
      with (repeat 1 (List.length
                        (seq 0 (Z.to_nat (cd_number_elected contest_description)))))
      by (rewrite length_seq; reflexivity).
    apply map_all_equal. intros n Hn. apply in_seq in Hn.
    unfold placeholder_entry. cbn [fst]. unfold selection_from.
    rewrite Htext.
    replace (0 + Z.of_nat n <? cd_number_elected contest_description) with true
      by (symmetry; apply Z.ltb_lt; lia).
    reflexivity.
Qed.

(** The contest synthesized for the scenario's description: false, false
    and a true placeholder; it is encrypted and verified. *)
Lemma synthesized_contest_plaintexts_witness :
  fst (contest_loops Reference.X (fun s _ => to_int Reference.X s) 0
         (contest_from Reference.desc_contest) Reference.desc_contest)
  = [0; 0; 1]
  /\ exists ec,
       encrypt_contest Reference.X (contest_from Reference.desc_contest)
         Reference.desc_contest Reference.public_key 55 true
       = Returns (Some ec).
Proof.
  split.
  - exact (synthesized_contest_plaintexts Reference.X 0 Reference.desc_contest
             reference_to_int_text).
  - eexists. vm_compute. reflexivity.
Defined.

(** ** The sequence order of the first placeholder *)

(** X7.  When the contest has a seat and a selection description of
    sequence order 0 or more, the first placeholder description built by
    [encrypt_contest], the one that follows the real descriptions, takes the
    sequence order of one of the real descriptions: the placeholders start
    at [highest_sequence_order], not after it. *)
Theorem first_placeholder_reuses_a_sequence_order X unbound contest
  contest_description :
  0 < cd_number_elected contest_description ->
  Exists (fun d => 0 <= sd_sequence_order d)
    (cd_ballot_selections contest_description) ->
  exists placeholder,
    nth_error
      (fst (contest_loops X (fun _ d => d) unbound contest contest_description))
      (List.length (cd_ballot_selections contest_description))
    = Some placeholder
    /\ py_chars (sd_object_id placeholder)
       = (py_chars (cd_object_id contest_description) ++ "-"
          ++ str_of_int (sd_sequence_order placeholder))%string
    /\ Exists (fun d => sd_sequence_order d = sd_sequence_order placeholder)
         (cd_ballot_selections contest_description).
Proof.
  intros Hseat Hreal.
  rewrite contest_loops_spec.
  rewrite <- (map_map (fun p => snd p) (fun d => d)), map_id.
  rewrite contest_plan_descriptions.
  rewrite nth_error_app2, Nat.sub_diag by apply Nat.le_refl.
  unfold range.
  destruct (Z.to_nat (cd_number_elected contest_description)) as [|n] eqn:En;
    [lia|].
  cbn [seq map nth_error]. eexists. split; [reflexivity|].
  split; [reflexivity|].
  cbn [placeholder_selection_description_from sd_sequence_order Z.of_nat].
  rewrite Z.add_0_r.
  destruct (highest_from_bounds 0 (cd_ballot_selections contest_description))
    as [Hle [Hall [Hzero|Hex]]]; [|exact Hex].
  rewrite Hzero in *. rewrite Forall_forall in Hall.
  apply Exists_exists in Hreal. destruct Hreal as [d [Hd Hd0]].
  apply Exists_exists. exists d. split; [exact Hd|].
  specialize (Hall d Hd). cbn beta in Hall. lia.
Qed.

(** In the scenario [B] has sequence order 1, and so has the placeholder
    ["contest-1-1"]. *)
Lemma first_placeholder_reuses_a_sequence_order_witness :
  exists placeholder,
    nth_error
      (fst (contest_loops Reference.X (fun _ d => d) Reference.desc_A
              Reference.contest_A Reference.desc_contest)) 2
    = Some placeholder
    /\ py_chars (sd_object_id placeholder) = "contest-1-1"%string
    /\ sd_sequence_order placeholder = sd_sequence_order Reference.desc_B.
Proof.
  destruct (first_placeholder_reuses_a_sequence_order Reference.X
              Reference.desc_A Reference.contest_A Reference.desc_contest)
    as [placeholder [Hnth [Hid _]]].
  - reflexivity.
  - left. cbn. lia.
  - exists placeholder. split; [exact Hnth|].
    vm_compute in Hnth. injection Hnth as <-. split; reflexivity.
Defined.

(** ** Nonces and the voter's choices *)

Lemma Forall2_same_descriptions {A B : Type}
  (f1 f2 : A * SelectionDescription -> B) (R : B -> B -> Prop)
  (plan1 plan2 : list (A * SelectionDescription)) :
  map snd plan1 = map snd plan2 ->
  (forall p1 p2, snd p1 = snd p2 -> R (f1 p1) (f2 p2)) ->
  Forall2 R (map f1 plan1) (map f2 plan2).
Proof.
  intros Hsnd HR. revert plan2 Hsnd.
  induction plan1 as [|p1 plan1 IH]; intros [|p2 plan2] Hsnd;
    try discriminate Hsnd; cbn; constructor.
  - apply HR. cbn in Hsnd. congruence.
  - apply IH. cbn in Hsnd. congruence.
Qed.

(** X8.  The nonces of an encrypted contest owe nothing to the voter's
    choices: two contests encrypted under one description and one seed have
    the same contest nonce and, place by place, selections with the same
    nonce and the same description hash. *)
Theorem nonces_ignore_the_votes X contest1 contest2 contest_description k seed
  verify1 verify2 ec1 ec2 :
  encrypt_contest X contest1 contest_description k seed verify1
  = Returns (Some ec1) ->
  encrypt_contest X contest2 contest_description k seed verify2
  = Returns (Some ec2) ->
  cc_nonce ec1 = cc_nonce ec2
  /\ Forall2
       (fun encrypted1 encrypted2 =>
          forall es1 es2, encrypted1 = Some es1 -> encrypted2 = Some es2 ->
            cs_nonce es1 = cs_nonce es2
            /\ cs_description_hash es1 = cs_description_hash es2)
       (cc_ballot_selections ec1) (cc_ballot_selections ec2).
Proof.
  intros H1 H2. apply encrypt_contest_returns in H1, H2.
  destruct H1 as [_ [-> [-> _]]]. destruct H2 as [_ [-> [-> _]]].
  split; [reflexivity|].
  apply Forall2_same_descriptions.
  - rewrite !contest_plan_descriptions. reflexivity.
  - intros p1 p2 Hsnd es1 es2 Hes1 Hes2.
    pose proof (encrypt_selection_nonce _ _ _ _ _ _ _ _ Hes1) as Hn1.
    pose proof (encrypt_selection_nonce _ _ _ _ _ _ _ _ Hes2) as Hn2.
    apply encrypt_selection_some in Hes1, Hes2.
    destruct Hes1 as [_ [_ [-> _]]]. destruct Hes2 as [_ [_ [-> _]]].
    rewrite Hn1, Hn2, Hsnd. split; reflexivity.
Qed.

(** The voter who selects [A] and the voter who selects nothing, under the
    seed 55: the nonces are the same. *)
Lemma nonces_ignore_the_votes_witness :
  exists ec1 ec2,
    encrypt_contest Reference.X Reference.contest_A Reference.desc_contest
      Reference.public_key 55 true = Returns (Some ec1)
    /\ encrypt_contest Reference.X (contest_from Reference.desc_contest)
         Reference.desc_contest Reference.public_key 55 true
       = Returns (Some ec2)
    /\ cc_nonce ec1 = cc_nonce ec2
    /\ map (option_map cs_nonce) (cc_ballot_selections ec1)
       = map (option_map cs_nonce) (cc_ballot_selections ec2)
    /\ map (option_map cs_message) (cc_ballot_selections ec1)
       <> map (option_map cs_message) (cc_ballot_selections ec2).
Proof.
  do 2 eexists. split; [vm_compute; reflexivity|].
  split; [vm_compute; reflexivity|].
  split; [|split].
  - apply (nonces_ignore_the_votes Reference.X Reference.contest_A
             (contest_from Reference.desc_contest) Reference.desc_contest
             Reference.public_key 55 true true);
      vm_compute; reflexivity.
  - vm_compute. reflexivity.
  - vm_compute. discriminate.
Defined.

(** ** What a returned ballot holds *)

Lemma Forall2_Forall_right {A B : Type} (R : A -> B -> Prop) (P : B -> Prop)
  (l1 : list A) (l2 : list B) :
  Forall2 R l1 l2 -> (forall a b, R a b -> P b) -> Forall P l2.
Proof.
  intros HF HP. induction HF as [|a b l1 l2 Hab _ IH]; constructor.
  - exact (HP a b Hab).
  - exact IH.
Qed.

Lemma ballot_plan_matches descriptions contests :
  Forall (fun p => py_is (pc_object_id (fst p)) (cd_object_id (snd p)) = true)
    (ballot_plan descriptions contests).
Proof.
  apply Forall_forall. intros p Hp. unfold ballot_plan in Hp.
  apply in_flat_map in Hp. destruct Hp as [d [_ Hp]].
  unfold contest_row in Hp. apply in_map_iff in Hp.
  destruct Hp as [c [<- _]]. cbn [fst snd].
  destruct (py_is (pc_object_id c) (cd_object_id d)) eqn:E; [exact E|].
  apply py_is_refl.
Qed.

Lemma encrypt_ballot_fields X ballot election context r verify eb :
  encrypt_ballot X ballot election context r verify = Returns (Some eb) ->
  ballot_is_valid X ballot
    (bs_object_id (get_ballot_style election (pb_ballot_style ballot))) = true
  /\ cb_object_id eb = pb_object_id ballot
  /\ cb_ballot_style eb = pb_ballot_style ballot
  /\ cb_description_hash eb = crypto_extended_base_hash context
  /\ (verify = true ->
      ballot_is_valid_encryption X eb (crypto_extended_base_hash context)
        (elgamal_public_key context) = Returns true).
Proof.
  unfold encrypt_ballot.
  destruct (ballot_is_valid X ballot _); cbn [negb]; [|discriminate].
  destruct (description_loop _ _ _ []) as [l|]; cbn [obind]; [|discriminate].
  destruct verify; cbn [negb].
  - destruct (ballot_is_valid_encryption X _ _ _) as [[|]|] eqn:E; cbn [obind];
      try discriminate.
    intros [= <-]. cbn. auto.
  - intros [= <-]. cbn. repeat split; discriminate.
Qed.

(** X9.  A ballot returned by [encrypt_ballot] keeps the object id and the
    style of the plaintext ballot, the extended base hash of the context
    and the random master nonce; its tracking id is the fixed text
    ["abc123"] for every ballot.  Each of its contests is bound to the
    description it was encrypted for, with that description's hash and
    object id (the same string object), and has the nonce of index
    [sequence_order] in the sequence seeded by
    [hash_elems(crypto_extended_base_hash, ballot.object_id,
    random_master_nonce)]. *)
Theorem encrypted_ballot_contents X ballot election context r verify eb :
  encrypt_ballot X ballot election context r verify = Returns (Some eb) ->
  cb_object_id eb = pb_object_id ballot
  /\ cb_ballot_style eb = pb_ballot_style ballot
  /\ cb_description_hash eb = crypto_extended_base_hash context
  /\ cb_nonce eb = Some r
  /\ cb_tracking_id eb = Some "abc123"%string
  /\ Forall2
       (fun p encrypted =>
          forall ec, encrypted = Some ec ->
            py_is (cc_object_id ec) (cd_object_id (snd p)) = true
            /\ cc_description_hash ec = contest_crypto_hash X (snd p)
            /\ cc_nonce ec
               = Some (Nonces_getitem X
                         (mkNonces (contest_crypto_hash X (snd p))
                            (hash_elems X (crypto_extended_base_hash context)
                               (pb_object_id ballot) r))
                         (cd_sequence_order (snd p))))
       (ballot_plan (get_contests_for election (pb_ballot_style ballot))
          (pb_contests ballot))
       (cb_contests eb).
Proof.
  intros H.
  destruct (encrypt_ballot_fields _ _ _ _ _ _ _ H) as [_ [Hid [Hstyle [Hhash _]]]].
  destruct (encrypt_ballot_returns _ _ _ _ _ _ _ H) as [HF [Hnonce Htrack]].
  repeat (split; [assumption|]).
  pose proof (ballot_plan_matches
                (get_contests_for election (pb_ballot_style ballot))
                (pb_contests ballot)) as Hm.
  induction HF as [|p oc plan l Hp _ IH]; constructor.
  - intros ec ->. unfold returned in Hp.
    apply encrypt_contest_returns in Hp.
    destruct Hp as [_ [_ [Hn [Hoid Hh]]]].
    inversion Hm as [|? ? Hpm _]; subst.
    rewrite Hoid. split; [exact Hpm|]. split; [exact Hh|exact Hn].
  - apply IH. inversion Hm; assumption.
Qed.

(** The ballot of the scenario, master nonce 900. *)
Lemma encrypted_ballot_contents_witness :
  exists eb,
    encrypt_ballot Reference.X Reference.ballot_A Reference.election
      Reference.context 900 true = Returns (Some eb)
    /\ cb_nonce eb = Some 900
    /\ cb_tracking_id eb = Some "abc123"%string
    /\ py_chars (cb_object_id eb) = "ballot-1"%string.
Proof.
  eexists. split; [vm_compute; reflexivity|].
  destruct (encrypted_ballot_contents Reference.X Reference.ballot_A
              Reference.election Reference.context 900 true _
              ltac:(vm_compute; reflexivity))
    as [Hid [_ [_ [Hnonce [Htrack _]]]]].
  split; [exact Hnonce|]. split; [exact Htrack|].
  rewrite Hid. reflexivity.
Defined.

(** ** The ballots of the compositor object *)

(** X10.  A ballot returned by [EncryptionCompositor.encrypt] comes from a
    plaintext ballot accepted by the validation and has passed every
    self-verification: the ballot's own, that of each of its contests, and
    that of each selection of these contests. *)
Theorem compositor_ballots_are_verified X self ballot r eb :
  EncryptionCompositor_encrypt X self ballot r = Returns (Some eb) ->
  ballot_is_valid X ballot
    (bs_object_id (get_ballot_style (_metadata self) (pb_ballot_style ballot)))
  = true
  /\ ballot_is_valid_encryption X eb
       (crypto_extended_base_hash (_encryption self))
       (elgamal_public_key (_encryption self)) = Returns true
  /\ Forall
       (fun encrypted =>
          forall ec, encrypted = Some ec ->
            contest_is_valid_encryption X ec (cc_description_hash ec)
              (elgamal_public_key (_encryption self)) = Returns true
            /\ Forall
                 (fun encrypted_selection =>
                    forall es, encrypted_selection = Some es ->
                      selection_is_valid_encryption X es
                        (cs_description_hash es)
                        (elgamal_public_key (_encryption self)) = true)
                 (cc_ballot_selections ec))
       (cb_contests eb).
Proof.
  unfold EncryptionCompositor_encrypt. intros H.
  destruct (encrypt_ballot_fields _ _ _ _ _ _ _ H) as [Hvalid [_ [_ [_ Hver]]]].
  destruct (encrypt_ballot_returns _ _ _ _ _ _ _ H) as [HF _].
  split; [exact Hvalid|]. split; [exact (Hver eq_refl)|].
  apply (Forall2_Forall_right _ _ _ _ HF).
  intros p oc Hp ec ->. unfold returned in Hp.
  pose proof (encrypt_contest_verified _ _ _ _ _ _ Hp) as Hcv.
  apply encrypt_contest_returns in Hp.
  destruct Hp as [_ [Hsel [_ [_ Hh]]]].
  rewrite Hh. split; [exact Hcv|].
  rewrite Hsel. apply Forall_forall. intros oe Hoe es ->.
  apply in_map_iff in Hoe. destruct Hoe as [q [Hq _]].
  apply encrypt_selection_some in Hq.
  destruct Hq as [_ [_ [-> [_ Hsv]]]]. exact (Hsv eq_refl).
Qed.

(** The compositor of the scenario's election encrypts the ballot of the
    scenario. *)
Lemma compositor_ballots_are_verified_witness :
  exists eb,
    EncryptionCompositor_encrypt Reference.X
      (EncryptionCompositor_init Reference.election Reference.context)
      Reference.ballot_A 900 = Returns (Some eb)
    /\ ballot_is_valid_encryption Reference.X eb
         (crypto_extended_base_hash Reference.context)
         (elgamal_public_key Reference.context) = Returns true
    /\ List.length (cb_contests eb) = 1%nat.
Proof.
  eexists. split; [vm_compute; reflexivity|].
  split; [|vm_compute; reflexivity].
  apply (compositor_ballots_are_verified Reference.X
           (EncryptionCompositor_init Reference.election Reference.context)
           Reference.ballot_A 900).
  vm_compute. reflexivity.
Defined.

(** ** Refusals *)

(** X11.  A contest refused by the validation makes [encrypt_contest]
    return [None] whatever the verification flag, and without verification
    this is the only way for it to return [None]; the same holds of
    [encrypt_ballot] and the validation of the ballot against its style. *)
Theorem refusals_come_from_validation X :
  (forall contest contest_description k seed,
     (contest_is_valid X contest (cd_object_id contest_description)
        (Z.of_nat (List.length (cd_ballot_selections contest_description)))
        (cd_number_elected contest_description)
        (cd_votes_allowed contest_description) = false ->
      forall verify,
        encrypt_contest X contest contest_description k seed verify
        = Returns None)
     /\ (encrypt_contest X contest contest_description k seed false
         = Returns None ->
         contest_is_valid X contest (cd_object_id contest_description)
           (Z.of_nat (List.length (cd_ballot_selections contest_description)))
           (cd_number_elected contest_description)
           (cd_votes_allowed contest_description) = false))
  /\ (forall ballot election context r,
        (ballot_is_valid X ballot
           (bs_object_id (get_ballot_style election (pb_ballot_style ballot)))
         = false ->
         forall verify,
           encrypt_ballot X ballot election context r verify = Returns None)
        /\ (encrypt_ballot X ballot election context r false = Returns None ->
            ballot_is_valid X ballot
              (bs_object_id (get_ballot_style election (pb_ballot_style ballot)))
            = false)).
Proof.
  split.
  - intros contest contest_description k seed. split.
    + intros Hinvalid verify. unfold encrypt_contest. rewrite Hinvalid.
      reflexivity.
    + unfold encrypt_contest.
      destruct (contest_is_valid X contest _ _ _ _); [|reflexivity].
      cbn [negb].
      destruct (contest_loops X _ None contest contest_description) as [es count].
      destruct (elgamal_accumulate X _); cbn [obind]; [|discriminate].
      destruct (aggregate_nonce X _); cbn [obind]; [|discriminate].
      destruct (make_constant_chaum_pedersen X _ _ _ _ _); cbn [obind];
        discriminate.
  - intros ballot election context r. split.
    + intros Hinvalid verify. unfold encrypt_ballot. rewrite Hinvalid.
      reflexivity.
    + unfold encrypt_ballot.
      destruct (ballot_is_valid X ballot _); [|reflexivity].
      cbn [negb].
      destruct (description_loop _ _ _ []); cbn [obind]; discriminate.
Qed.

(** The one-seat contest with both candidates selected is refused; so is a
    ballot of another style. *)
Lemma refusals_come_from_validation_witness :
  encrypt_contest Reference.X Reference.contest_over Reference.desc_contest
    Reference.public_key 55 true = Returns None
  /\ encrypt_ballot Reference.X
       (mkPlaintextBallot Reference.id_ballot (Reference.str 6 "style-2")
          [Reference.contest_A])
       Reference.election Reference.context 900 true = Returns None.
Proof.
  destruct (refusals_come_from_validation Reference.X) as [Hcontest Hballot].
  split.
  - apply Hcontest. vm_compute. reflexivity.
  - apply Hballot. vm_compute. reflexivity.
Defined.

(** ** The proof of a contest *)

Lemma encrypt_contest_proof X contest contest_description k seed verify ec :
  encrypt_contest X contest contest_description k seed verify
  = Returns (Some ec) ->
  exists accumulated aggregate,
    elgamal_accumulate X (cc_set_proof ec None) = Returns accumulated
    /\ aggregate_nonce X (cc_set_proof ec None) = Returns aggregate
    /\ make_constant_chaum_pedersen X accumulated
         (cd_number_elected contest_description) aggregate k
         (Nonces_getitem X
            (mkNonces (contest_crypto_hash X contest_description) seed) 0)
       = Returns (cc_proof ec).
Proof.
  unfold encrypt_contest.
  destruct (contest_is_valid X contest _ _ _ _); cbn [negb]; [|discriminate].
  destruct (contest_loops X _ None contest contest_description) as [es count].
  destruct (elgamal_accumulate X _) as [acc|] eqn:Eacc; cbn [obind];
    [|discriminate].
  destruct (aggregate_nonce X _) as [agg|] eqn:Eagg; cbn [obind];
    [|discriminate].
  destruct (make_constant_chaum_pedersen X _ _ _ _ _) as [proof|] eqn:Eproof;
    cbn [obind]; [|discriminate].
  unfold Nonces_first in Eproof.
  destruct verify; cbn [negb].
  - destruct (contest_is_valid_encryption X _ _ _) as [[|]|]; cbn [obind];
      try discriminate.
    intros [= <-]. exists acc, agg. cbn. auto.
  - intros [= <-]. exists acc, agg. cbn. auto.
Qed.

(** X12.  The proof attached to a returned contest is the one
    [make_constant_chaum_pedersen] gives for the constant [number_elected],
    whatever [selection_count] the loops reached: it is computed from the
    accumulation and the aggregate nonce of all the selections of the
    contest, real ones and placeholders, taken before the proof is
    attached, and it is seeded with the element of index 0 of
    [Nonces(contest_description.crypto_hash(), seed)]. *)
Theorem contest_proof_is_for_number_elected X contest contest_description k
  seed verify ec :
  encrypt_contest X contest contest_description k seed verify
  = Returns (Some ec) ->
  exists accumulated aggregate,
    elgamal_accumulate X (cc_set_proof ec None) = Returns accumulated
    /\ aggregate_nonce X (cc_set_proof ec None) = Returns aggregate
    /\ make_constant_chaum_pedersen X accumulated
         (cd_number_elected contest_description) aggregate k
         (Nonces_getitem X
            (mkNonces (contest_crypto_hash X contest_description) seed) 0)
       = Returns (cc_proof ec)
    /\ List.length (cc_ballot_selections (cc_set_proof ec None))
       = (List.length (cd_ballot_selections contest_description)
          + Z.to_nat (cd_number_elected contest_description))%nat.
Proof.
  intros H.
  destruct (encrypt_contest_proof _ _ _ _ _ _ _ H)
    as [accumulated [aggregate [Hacc [Hagg Hproof]]]].
  exists accumulated, aggregate. repeat (split; [assumption|]).
  apply encrypt_contest_returns in H. destruct H as [_ [Hsel _]].
  cbn [cc_set_proof cc_ballot_selections]. rewrite Hsel, length_map.
  apply contest_plan_length.
Qed.

(** The contest of the scenario: the proof is bound to the constant 1. *)
Lemma contest_proof_is_for_number_elected_witness :
  exists ec,
    encrypt_contest Reference.X Reference.contest_A Reference.desc_contest
      Reference.public_key 55 true = Returns (Some ec)
    /\ option_map kp_constant (cc_proof ec) = Some 1
    /\ exists accumulated aggregate,
         make_constant_chaum_pedersen Reference.X accumulated 1 aggregate
           Reference.public_key
           (Nonces_getitem Reference.X
              (mkNonces (contest_crypto_hash Reference.X Reference.desc_contest)
                 55) 0)
         = Returns (cc_proof ec).
Proof.
  eexists. split; [vm_compute; reflexivity|].
  split; [vm_compute; reflexivity|].
  destruct (contest_proof_is_for_number_elected Reference.X Reference.contest_A
              Reference.desc_contest Reference.public_key 55 true _
              ltac:(vm_compute; reflexivity))
    as [accumulated [aggregate [_ [_ [Hproof _]]]]].
  exists accumulated, aggregate. exact Hproof.
Defined.

(** ** Sequence order 0 *)

(** X13.  Index 0 of a nonce sequence seeds the proofs, and a description of
    sequence order 0 takes its encryption nonce at the same index: for such
    a selection description the disjunctive proof of a returned selection
    is seeded with the very nonce of its ElGamal encryption, and for such a
    contest description the constant proof of a returned contest is seeded
    with the contest nonce. *)
Theorem order_zero_seeds_proof_with_nonce X :
  (forall selection selection_description k seed is_placeholder verify es,
     sd_sequence_order selection_description = 0 ->
     encrypt_selection X selection selection_description k seed is_placeholder
       verify = Some es ->
     exists nonce,
       cs_nonce es = Some nonce
       /\ cs_message es = elgamal_encrypt X (to_int X selection) nonce k
       /\ cs_proof es
          = flatmap_optional (cs_message es)
              (fun cyphertext =>
                 make_disjunctive_chaum_pedersen X cyphertext nonce k nonce
                   (to_int X selection)))
  /\ (forall contest contest_description k seed verify ec,
        cd_sequence_order contest_description = 0 ->
        encrypt_contest X contest contest_description k seed verify
        = Returns (Some ec) ->
        exists nonce accumulated aggregate,
          cc_nonce ec = Some nonce
          /\ make_constant_chaum_pedersen X accumulated
               (cd_number_elected contest_description) aggregate k nonce
             = Returns (cc_proof ec)).
Proof.
  split.
  - intros selection selection_description k seed is_placeholder verify es
      Hzero.
    unfold encrypt_selection.
    destruct (selection_is_valid X selection _); cbn [negb]; [|discriminate].
    unfold Nonces_first. rewrite Hzero.
    destruct verify; cbn [negb].
    + destruct (selection_is_valid_encryption X _ _ _); [|discriminate].
      intros [= <-]. eexists. cbn. repeat split.
    + intros [= <-]. eexists. cbn. repeat split.
  - intros contest contest_description k seed verify ec Hzero H.
    destruct (encrypt_contest_proof _ _ _ _ _ _ _ H)
      as [accumulated [aggregate [_ [_ Hproof]]]].
    apply encrypt_contest_returns in H. destruct H as [_ [_ [Hnonce _]]].
    exists (contest_nonce_of X contest_description seed), accumulated, aggregate.
    split; [exact Hnonce|].
    unfold contest_nonce_of. rewrite Hzero. exact Hproof.
Qed.

(** The selection description [A] and the contest description of the
    scenario have sequence order 0. *)
Lemma order_zero_seeds_proof_with_nonce_witness :
  (exists es nonce,
     encrypt_selection Reference.X Reference.vote_A Reference.desc_A
       Reference.public_key 55 false true = Some es
     /\ cs_nonce es = Some nonce
     /\ cs_proof es
        = flatmap_optional (cs_message es)
            (fun cyphertext =>
               make_disjunctive_chaum_pedersen Reference.X cyphertext nonce
                 Reference.public_key nonce (to_int Reference.X Reference.vote_A)))
  /\ (exists ec nonce accumulated aggregate,
        encrypt_contest Reference.X Reference.contest_A Reference.desc_contest
          Reference.public_key 55 true = Returns (Some ec)
        /\ cc_nonce ec = Some nonce
        /\ make_constant_chaum_pedersen Reference.X accumulated 1 aggregate
             Reference.public_key nonce
           = Returns (cc_proof ec)).
Proof.
  destruct (order_zero_seeds_proof_with_nonce Reference.X)
    as [Hselection Hcontest].
  split.
  - eexists.
    destruct (Hselection Reference.vote_A Reference.desc_A Reference.public_key
                55 false true _ eq_refl ltac:(vm_compute; reflexivity))
      as [nonce [Hnonce [_ Hproof]]].
    exists nonce. split; [vm_compute; reflexivity|].
    split; [exact Hnonce|exact Hproof].
  - eexists.
    destruct (Hcontest Reference.contest_A Reference.desc_contest
                Reference.public_key 55 true _ eq_refl
                ltac:(vm_compute; reflexivity))
      as [nonce [accumulated [aggregate [Hnonce Hproof]]]].
    exists nonce, accumulated, aggregate.
    split; [vm_compute; reflexivity|].
    split; [exact Hnonce|exact Hproof].
Defined.

(** ** Equal inputs *)

Lemma app_same_length_inv {A : Type} (l1 l1' l2 l2' : list A) :
  List.length l1 = List.length l1' -> l1 ++ l2 = l1' ++ l2' -> l1 = l1'.
Proof.
  revert l1'. induction l1 as [|a l1 IH]; intros [|a' l1'] Hlen Heq;
    try discriminate Hlen; [reflexivity|].
  cbn in Heq. injection Heq as -> Heq. f_equal.
  apply IH; [|exact Heq]. cbn in Hlen. lia.
Qed.

(** C9 (the code departs from the claim).  Two calls of [encrypt_contest]
    whose inputs are the same, value for value, do not always encrypt the
    same plaintexts.  Take two selections with the same object id
    characters, the same true vote and the same flag; when the id of the
    first is the string object of a description's id and the id of the
    second is a string object of its own, the first contest has its true
    vote encrypted at the place of that description and the second has only
    false votes there, under the same description, key and seed. *)
Theorem equal_inputs_encrypt_differently X unbound object_id s s' description
  contest_description :
  py_chars (ps_object_id s) = py_chars (ps_object_id s') ->
  ps_vote s = ps_vote s' ->
  ps_is_placeholder s = ps_is_placeholder s' ->
  ps_vote s = PyText "True" ->
  In description (cd_ballot_selections contest_description) ->
  py_is (ps_object_id s) (sd_object_id description) = true ->
  (forall d, In d (cd_ballot_selections contest_description) ->
             py_is (ps_object_id s') (sd_object_id d) = false) ->
  In (PyText "True")
    (firstn (List.length (cd_ballot_selections contest_description))
       (fst (contest_loops X (fun selection _ => ps_vote selection) unbound
               (mkPlaintextBallotContest object_id [s]) contest_description)))
  /\ firstn (List.length (cd_ballot_selections contest_description))
       (fst (contest_loops X (fun selection _ => ps_vote selection) unbound
               (mkPlaintextBallotContest object_id [s']) contest_description))
     = repeat (PyText "False")
         (List.length (cd_ballot_selections contest_description))
  /\ fst (contest_loops X (fun selection _ => ps_vote selection) unbound
            (mkPlaintextBallotContest object_id [s]) contest_description)
     <> fst (contest_loops X (fun selection _ => ps_vote selection) unbound
               (mkPlaintextBallotContest object_id [s']) contest_description).
Proof.
  intros _ _ _ Htrue Hin Hsame Hother.
  rewrite !contest_loops_spec. unfold contest_plan. rewrite !map_app.
  assert (forall contest,
    firstn (List.length (cd_ballot_selections contest_description))
      (map (fun p => ps_vote (fst p))
         (real_plan contest (cd_ballot_selections contest_description))
       ++ map (fun p => ps_vote (fst p))
            (placeholder_plan X contest_description
               (highest_from 0 (cd_ballot_selections contest_description))
               (real_count X contest (cd_ballot_selections contest_description))))
    = map (fun p => ps_vote (fst p))
        (real_plan contest (cd_ballot_selections contest_description)))
    as Hfirst.
  { intros contest.
    rewrite <- (real_plan_length contest (cd_ballot_selections contest_description)).
    rewrite <- (length_map (fun p => ps_vote (fst p))
                  (real_plan contest (cd_ballot_selections contest_description))).
    rewrite firstn_app, Nat.sub_diag, firstn_all. cbn [firstn].
    apply app_nil_r. }
  assert (In (PyText "True")
            (map (fun p => ps_vote (fst p))
               (real_plan (mkPlaintextBallotContest object_id [s])
                  (cd_ballot_selections contest_description)))) as Hleft.
  { apply in_map_iff.
    exists (chosen_selection description [s], description). split.
    - cbn [fst]. unfold chosen_selection, matching. cbn [filter].
      unfold matches. rewrite Hsame. cbn [last]. exact Htrue.
    - unfold real_plan. cbn [pc_ballot_selections].
      apply in_map_iff. exists description. split; [reflexivity|exact Hin]. }
  assert (map (fun p => ps_vote (fst p))
            (real_plan (mkPlaintextBallotContest object_id [s'])
               (cd_ballot_selections contest_description))
          = repeat (PyText "False")
              (List.length (cd_ballot_selections contest_description)))
    as Hright.
  { unfold real_plan. rewrite map_map. cbn [fst pc_ballot_selections].
    apply map_all_equal. intros d Hd.
    unfold chosen_selection, matching. cbn [filter]. unfold matches.
    rewrite (Hother d Hd). reflexivity. }
  split; [|split].
  - rewrite Hfirst. exact Hleft.
  - rewrite Hfirst. exact Hright.
  - intros Heq.
    apply app_same_length_inv in Heq;
      [|rewrite !length_map, !real_plan_length; reflexivity].
    rewrite Heq, Hright in Hleft. apply repeat_spec in Hleft.
    discriminate Hleft.
Qed.

(** The race read twice: the contest whose selection id is the
    description's own string object, and the contest whose selection id was
    read from a file.  The two contests are equal value for value, both are
    encrypted and verified under the seed 55, and the ciphertexts differ. *)
Lemma equal_inputs_encrypt_differently_witness :
  (py_chars (pc_object_id Reference.contest_alice)
   = py_chars (pc_object_id Reference.contest_alice_read)
   /\ map (fun s => (py_chars (ps_object_id s), ps_vote s, ps_is_placeholder s))
        (pc_ballot_selections Reference.contest_alice)
      = map (fun s => (py_chars (ps_object_id s), ps_vote s, ps_is_placeholder s))
          (pc_ballot_selections Reference.contest_alice_read))
  /\ fst (contest_loops Reference.X (fun selection _ => ps_vote selection)
            (PyInt 0) Reference.contest_alice Reference.desc_race)
     <> fst (contest_loops Reference.X (fun selection _ => ps_vote selection)
               (PyInt 0) Reference.contest_alice_read Reference.desc_race)
  /\ exists ec1 ec2,
       encrypt_contest Reference.X Reference.contest_alice Reference.desc_race
         Reference.public_key 55 true = Returns (Some ec1)
       /\ encrypt_contest Reference.X Reference.contest_alice_read
            Reference.desc_race Reference.public_key 55 true
          = Returns (Some ec2)
       /\ map (option_map cs_message) (cc_ballot_selections ec1)
          <> map (option_map cs_message) (cc_ballot_selections ec2).
Proof.
  split; [split; reflexivity|]. split.
  - apply (equal_inputs_encrypt_differently Reference.X (PyInt 0)
             Reference.id_race
             (mkPlaintextBallotSelection Reference.id_alice (PyText "True") false)
             Reference.vote_alice_read Reference.desc_alice Reference.desc_race);
      try reflexivity.
    + left. reflexivity.
    + intros d [<-|[<-|[]]]; reflexivity.
  - do 2 eexists. split; [vm_compute; reflexivity|].
    split; [vm_compute; reflexivity|].
    vm_compute. discriminate.
Defined.
